(** * Model catalog resolution of the openastra front-end

    Shallow embedding of [frontend/lib/hooks/use-available-models.tsx]:
    the memoised per-connection listing [fetchModelsByProvider] and one
    pass of the effect of the hook [useAvailableModels].

    JavaScript strings are modelled by [string]; the only characters the
    code inspects are ASCII (the separator '/'), so the difference between
    UTF-16 code units and bytes is not observable here. *)

From Stdlib Require Import Ascii String.
From stdpp Require Import base list strings.

#[local] Set Warnings "-register-all".

(** ** JavaScript values and the operations the hook applies to them *)

Module JS.

(** The errors the modelled code can raise or receive. *)
Inductive js_error :=
| NetworkError   (* [fetch] rejected: the endpoint could not be reached *)
| SyntaxError    (* [response.json()] rejected: the body is not JSON *)
| TypeError.     (* property read of undefined/null, call of a non-function,
                    conversion of an object without a usable toString *)

(** Completion of an evaluation.  Inside an [async] function a thrown
    error rejects the returned promise, so the same type stands for a
    settled promise: [Normal] is fulfilled, [Throw] is rejected. *)
Inductive completion (A : Type) :=
| Normal (a : A)
| Throw (e : js_error).
Arguments Normal {A} a.
Arguments Throw {A} e.

Definition bind {A B} (m : completion A) (k : A → completion B) : completion B :=
  match m with
  | Normal a => k a
  | Throw e => Throw e
  end.

Definition is_normal {A} (m : completion A) : bool :=
  match m with Normal _ => true | Throw _ => false end.

(** Values that [JSON.parse] can produce, plus [undefined]; a number is
    kept as the text [Number::toString] renders for it. *)
Inductive jsval :=
| JUndefined
| JNull
| JBool (b : bool)
| JNumber (repr : string)
| JString (s : string)
| JArray (items : list jsval)
| JObject (props : list (string * jsval)).

Fixpoint own_property (k : string) (props : list (string * jsval)) : option jsval :=
  match props with
  | [] => None
  | (k', v) :: rest => if String.eqb k k' then Some v else own_property k rest
  end.

(** [v[k]] for a key that no built-in prototype of a JSON value defines
    and that is neither an array index nor "length" (the code reads
    'models', 'name' and 'url' only). *)
Definition get (v : jsval) (k : string) : completion jsval :=
  match v with
  | JUndefined | JNull => Throw TypeError
  | JObject props => Normal (default JUndefined (own_property k props))
  | _ => Normal JUndefined
  end.

(** ToString, as applied by [+] with a string operand and by template
    literals.  A parsed object has no callable toString of its own, so
    an own "toString" key shadows the inherited one and the conversion
    throws; arrays are joined with ",". *)
Fixpoint to_string (v : jsval) : completion string :=
  match v with
  | JUndefined => Normal "undefined"
  | JNull => Normal "null"
  | JBool true => Normal "true"
  | JBool false => Normal "false"
  | JNumber repr => Normal repr
  | JString s => Normal s
  | JArray items =>
      (fix join (l : list jsval) : completion string :=
         match l with
         | [] => Normal ""
         | x :: rest =>
             bind (match x with
                   | JUndefined | JNull => Normal ""
                   | _ => to_string x
                   end)
                  (fun s =>
                     match rest with
                     | [] => Normal s
                     | _ :: _ => bind (join rest) (fun r => Normal (s +:+ "," +:+ r))
                     end)
         end) items
  | JObject props =>
      match own_property "toString" props with
      | Some _ => Throw TypeError
      | None => Normal "[object Object]"
      end
  end.

(** [String.prototype.split] with a one-character separator: every
    occurrence splits. *)
Fixpoint split_all (sep : ascii) (s : string) : list string :=
  match s with
  | EmptyString => [""]
  | String c rest =>
      if Ascii.eqb c sep then "" :: split_all sep rest
      else match split_all sep rest with
           | [] => [String c ""]
           | piece :: pieces => String c piece :: pieces
           end
  end.

(** [s.split(sep, limit)]: the pieces of the full split, truncated to
    the first [limit] of them (the rest of the string is dropped). *)
Definition split (s : string) (sep : ascii) (limit : nat) : list string :=
  take limit (split_all sep s).

End JS.
Export JS.

Fixpoint jsval_eq_dec (x y : jsval) : {x = y} + {x ≠ y}.
Proof.
  refine
    (match x, y with
     | JUndefined, JUndefined | JNull, JNull => left eq_refl
     | JBool a, JBool b => cast_if (decide (a = b))
     | JNumber a, JNumber b => cast_if (decide (a = b))
     | JString a, JString b => cast_if (decide (a = b))
     | JArray a, JArray b => cast_if (list_eq_dec (dec := jsval_eq_dec) a b)
     | JObject a, JObject b =>
         cast_if (list_eq_dec
                    (dec := fun p q =>
                       match decide (p.1 = q.1), jsval_eq_dec p.2 q.2 with
                       | left Hk, left Hv => left _
                       | _, _ => right _
                       end) a b)
     | _, _ => right _
     end); try congruence; try (destruct p, q; simpl in *; congruence).
Defined.

#[global] Instance jsval_eq : EqDecision jsval := jsval_eq_dec.

(** ** Data model *)

(** Modelled from the spec: the declaration of [Connection] in
    '@/lib/types' is not among the sources.  The fields are the ones the
    hook reads ([id], [type], [data]); [ref] is the identity of the object
    (two objects with equal fields are still two objects), which is what
    the memoisation compares. *)
Module Connection.
Record t := mk {
  ref : nat;
  id : string;
  type : string;
  data : jsval
}.

#[global] Instance eq_dec : EqDecision t.
Proof. solve_decision. Defined.
End Connection.

(** Modelled from the spec: the declaration of [Model] in '@/lib/types'
    is not among the sources.  [name] is [None] while the property is
    absent or undefined. *)
Module Model.
Record t := mk {
  id : string;
  connection : Connection.t;
  name : option string
}.
End Model.

(** Modelled from the spec: the value of [useSettings().settings]; every
    level that the hook reads through [?.] may be missing. *)
Module Settings.
Record general_t := mk_general { connections : option (list Connection.t) }.
Record data_t := mk_data { general : option general_t }.
Record t := mk { data : option data_t }.
End Settings.

(** ** The network *)

(** What an endpoint answers: nothing (the request fails), or a response
    whose body parses as JSON or does not. *)
Inductive reply :=
| Unreachable
| Response (body : option jsval).

(** [respond n url] is the reply to the [n]-th request of the process when
    it goes to [url]; [requests] lists the URLs requested so far. *)
Record Network := mk_network {
  respond : nat → string → reply;
  requests : list string
}.

(** [await fetch(url)] *)
Definition fetch (url : string) (nw : Network) : completion (option jsval) * Network :=
  (match respond nw (length (requests nw)) url with
   | Unreachable => Throw NetworkError
   | Response body => Normal body
   end,
   {| respond := respond nw; requests := requests nw ++ [url] |}).

(** [await response.json()] *)
Definition json (body : option jsval) : completion jsval :=
  match body with
  | Some v => Normal v
  | None => Throw SyntaxError
  end.

(** [records.map(f)]: only an array has a callable [map]; the first
    callback that throws aborts the loop. *)
Fixpoint map_items {A} (f : jsval → completion A) (items : list jsval) : completion (list A) :=
  match items with
  | [] => Normal []
  | x :: rest => bind (f x) (fun y => bind (map_items f rest) (fun ys => Normal (y :: ys)))
  end.

Definition array_map {A} (records : jsval) (f : jsval → completion A) : completion (list A) :=
  match records with
  | JArray items => map_items f items
  | _ => Throw TypeError
  end.

(** ** [fetchModelsByProvider] *)

(** The model literal [{ id, connection }]. *)
Definition record_of (id : string) (connection : Connection.t) : Model.t :=
  {| Model.id := id; Model.connection := connection; Model.name := None |}.

(** The async arrow function handed to [cache]. *)
Definition fetchModelsByProvider_fn (connection : Connection.t) (nw : Network)
  : completion (list Model.t) * Network :=
  if String.eqb (Connection.type connection) "openai" then
    (Normal [ record_of (Connection.id connection +:+ "/gpt-3.5-turbo-0125") connection;
              record_of (Connection.id connection +:+ "/gpt-4-turbo") connection;
              record_of (Connection.id connection +:+ "/gpt-3.5-turbo") connection;
              record_of (Connection.id connection +:+ "/gpt-4o-mini") connection ], nw)
  else if String.eqb (Connection.type connection) "groq" then
    (Normal [ record_of (Connection.id connection +:+ "/llama3-8b-8192") connection;
              record_of (Connection.id connection +:+ "/llama3-70b-8192") connection;
              record_of (Connection.id connection +:+ "/mixtral-8x7b-32768") connection;
              record_of (Connection.id connection +:+ "/gemma-7b-it") connection ], nw)
  else if String.eqb (Connection.type connection) "ollama" then
    match bind (get (Connection.data connection) "url") to_string with
    | Throw e => (Throw e, nw)
    | Normal url =>
        let '(response, nw') := fetch (url +:+ "/api/tags") nw in
        (bind response (fun response =>
         bind (json response) (fun body =>
         bind (get body "models") (fun records =>
         array_map records (fun model =>
           bind (get model "name") (fun name =>
           bind (to_string name) (fun name =>
           Normal (record_of ((Connection.id connection +:+ "/") +:+ name) connection))))))),
         nw')
    end
  else
    (Normal [], nw).

(** Modelled from the spec: [cache] is imported from 'react' and is not
    among the sources.  It is taken as a memoising wrapper: the first call
    with an argument runs the function and keeps what it returned (here the
    promise, so also a rejection) under that argument; a later call with
    the same argument (the same object) returns the kept value and does not
    run the function.  The table lives beside the state the function works
    on and is never emptied. *)
Fixpoint cached {K V} `{EqDecision K} (k : K) (table : list (K * V)) : option V :=
  match table with
  | [] => None
  | (k', v) :: rest => if decide (k = k') then Some v else cached k rest
  end.

Definition cache {K V S} `{EqDecision K} (fn : K → S → V * S)
    (k : K) (st : list (K * V) * S) : V * (list (K * V) * S) :=
  match cached k st.1 with
  | Some v => (v, st)
  | None => let '(v, s') := fn k st.2 in (v, ((k, v) :: st.1, s'))
  end.

(** What persists at module level: the memo table and the network. *)
Definition Runtime : Type :=
  list (Connection.t * completion (list Model.t)) * Network.

Definition memo (rt : Runtime) := rt.1.
Definition network (rt : Runtime) : Network := rt.2.

Definition fetchModelsByProvider : Connection.t → Runtime → completion (list Model.t) * Runtime :=
  cache fetchModelsByProvider_fn.

(** ** [useAvailableModels] *)

(** [{ ...record, name: record.id.split('/', 2)[1] }] *)
Definition with_name (record : Model.t) : Model.t :=
  {| Model.id := Model.id record;
     Model.connection := Model.connection record;
     Model.name := split (Model.id record) "/" 2 !! 1 |}.

(** The callback of [connections.map]. *)
Definition resolve (connection : Connection.t) (rt : Runtime)
  : completion (list Model.t) * Runtime :=
  let '(records, rt') := fetchModelsByProvider connection rt in
  (bind records (fun records => Normal (with_name <$> records)), rt').

(** [connections.map(async connection => ...)]: the callbacks start in the
    order of the list, each one up to its first suspension, so the memo
    lookups and the [fetch] calls happen in that order, whatever the
    replies are. *)
Fixpoint start_all (connections : list Connection.t) (rt : Runtime)
  : list (completion (list Model.t)) * Runtime :=
  match connections with
  | [] => ([], rt)
  | connection :: rest =>
      let '(r, rt1) := resolve connection rt in
      let '(rs, rt2) := start_all rest rt1 in
      (r :: rs, rt2)
  end.

(** [await Promise.all(promises)]: the list of values in the order of the
    inputs when all are fulfilled, a rejection as soon as one input is
    rejected.  Which rejection comes first depends on time; the model has
    no clock and takes the first in the order of the list. *)
Fixpoint promise_all {A} (promises : list (completion A)) : completion (list A) :=
  match promises with
  | [] => Normal []
  | p :: rest => bind p (fun v => bind (promise_all rest) (fun vs => Normal (v :: vs)))
  end.

(** [settings?.data?.general?.connections || []] *)
Definition connections_of (settings : option Settings.t) : list Connection.t :=
  match settings with
  | Some settings =>
      match Settings.data settings with
      | Some data =>
          match Settings.general data with
          | Some general => default [] (Settings.connections general)
          | None => []
          end
      | None => []
      end
  | None => []
  end.

(** The state of a mounted hook: the [availableModels] cell of [useState],
    the console, and the runtime the passes share. *)
Record Hook := mk_hook {
  runtime : Runtime;
  console : list js_error;
  availableModels : list Model.t
}.

(** [useState<Model[]>([])] *)
Definition mount (rt : Runtime) : Hook :=
  {| runtime := rt; console := []; availableModels := [] |}.

(** One run of [fetchAvailableModels], up to its last state update. *)
Definition fetchAvailableModels (settings : option Settings.t) (h : Hook) : Hook :=
  let connections := connections_of settings in
  let '(promises, rt') := start_all connections (runtime h) in
  match promise_all promises with
  | Normal models =>
      {| runtime := rt'; console := console h; availableModels := concat models |}
  | Throw error =>
      {| runtime := rt'; console := console h ++ [error]; availableModels := [] |}
  end.

(** The effect runs once per value of [settings]; a pass that is overtaken
    by a later one is not modelled (the passes run one after the other). *)
Definition useAvailableModels (history : list (option Settings.t)) (h : Hook) : Hook :=
  foldl (fun h settings => fetchAvailableModels settings h) h history.

(** ** What the statements below speak about *)

(** A model belongs to a connection: it points back to it and its id is
    the connection id, a '/', and some name. *)
Definition owned_by (c : Connection.t) (m : Model.t) : Prop :=
  Model.connection m = c ∧ ∃ n, Model.id m = Connection.id c +:+ "/" +:+ n.

(** The id of [c2] continues the id of [c1] after a '/'. *)
Definition extends (c1 c2 : Connection.t) : Prop :=
  ∃ rest, Connection.id c2 = Connection.id c1 +:+ "/" +:+ rest.

(** No two models of connections with different ids share an id. *)
Definition ids_distinct_across (catalog : list Model.t) : Prop :=
  ∀ m1 m2, m1 ∈ catalog → m2 ∈ catalog →
    Connection.id (Model.connection m1) ≠ Connection.id (Model.connection m2) →
    Model.id m1 ≠ Model.id m2.

(** The character [a] occurs in [s]. *)
Fixpoint occurs (a : ascii) (s : string) : bool :=
  match s with
  | EmptyString => false
  | String c rest => Ascii.eqb c a || occurs a rest
  end.

(** Every entry of the memo table is what the function returned for its
    key at some earlier moment of the same network. *)
Definition cache_sound (rt : Runtime) : Prop :=
  ∀ c r, cached c (memo rt) = Some r →
    ∃ nw, respond nw = respond (network rt) ∧ r = (fetchModelsByProvider_fn c nw).1.

(** The per-connection resolutions of a list of connections all succeed,
    one after the other, with these lists of models. *)
Inductive all_resolve : Runtime → list Connection.t → list (list Model.t) → Runtime → Prop :=
| all_resolve_nil rt : all_resolve rt [] [] rt
| all_resolve_cons rt c ms rt1 cs mss rt2 :
    resolve c rt = (Normal ms, rt1) →
    all_resolve rt1 cs mss rt2 →
    all_resolve rt (c :: cs) (ms :: mss) rt2.

(** A reply from which the ollama branch can read a list of models: a JSON
    body whose 'models' is an array. *)
Definition usable (r : reply) : bool :=
  match r with
  | Response (Some body) =>
      match get body "models" with
      | Normal (JArray _) => true
      | _ => false
      end
  | _ => false
  end.

(** The same record with another back-reference. *)
Definition rebind (c : Connection.t) (m : Model.t) : Model.t :=
  {| Model.id := Model.id m; Model.connection := c; Model.name := Model.name m |}.

(** ** Concrete connections, replies and settings *)

Module Sample.
Definition ollama : Connection.t :=
  Connection.mk 1 "c1" "ollama" (JObject [("url", JString "http://localhost:11434")]).
Definition openai : Connection.t :=
  Connection.mk 2 "c2" "openai" (JObject [("apiKey", JString "sk-1")]).
Definition groq : Connection.t :=
  Connection.mk 3 "c3" "groq" (JObject [("apiKey", JString "gsk-1")]).
Definition unknown : Connection.t :=
  Connection.mk 4 "c4" "anthropic" JNull.

(** The same openai connection, as a second object with another payload. *)
Definition openai' : Connection.t :=
  Connection.mk 5 "c2" "openai" (JObject [("apiKey", JString "sk-2")]).

(** [{"models":[{"name":"a"},{"name":"b"}]}] *)
Definition tags_ab : jsval :=
  JObject [("models", JArray [JObject [("name", JString "a")];
                              JObject [("name", JString "b")]])].

(** [{"models":[{"name":"library/llama3"}]}] *)
Definition tags_nested : jsval :=
  JObject [("models", JArray [JObject [("name", JString "library/llama3")]])].

(** [{"error":"not found"}]: a body without 'models'. *)
Definition tags_missing : jsval :=
  JObject [("error", JString "not found")].

(** [{"models":[{"name":"b/gpt-4-turbo"}]}] *)
Definition tags_clash : jsval :=
  JObject [("models", JArray [JObject [("name", JString "b/gpt-4-turbo")]])].

(** Two connections, the id of the second continuing the id of the first. *)
Definition outer : Connection.t :=
  Connection.mk 6 "a" "ollama" (JObject [("url", JString "http://localhost:11434")]).
Definition inner : Connection.t :=
  Connection.mk 7 "a/b" "openai" (JObject [("apiKey", JString "sk-3")]).

(** A network whose every endpoint answers with [body]. *)
Definition serving (body : jsval) : Network :=
  {| respond := fun _ _ => Response (Some body); requests := [] |}.

(** A network on which no endpoint can be reached. *)
Definition offline : Network :=
  {| respond := fun _ _ => Unreachable; requests := [] |}.

Definition fresh (nw : Network) : Runtime := ([], nw).

Definition settings_with (connections : list Connection.t) : option Settings.t :=
  Some (Settings.mk (Some (Settings.mk_data (Some (Settings.mk_general (Some connections)))))).
End Sample.

(** ** [Conversation] (components/conversation.tsx) *)

Module Conversation.

(** The fields of a chat message that the component reads or writes. *)
Record Message := mk_message { role : string; content : string }.

(** What the first effect works on: the [effectRanOnce] ref and the calls
    of [append] (a function of [useChat]) made so far. *)
Record Refs := mk_refs {
  effectRanOnce : bool;
  appended : list Message
}.

(** [useRef(false)], before any call of [append]. *)
Definition initial : Refs := {| effectRanOnce := false; appended := [] |}.

(** The body of the first [useEffect], run with the current [searchQuery]. *)
Definition append_once (searchQuery : string) (refs : Refs) : Refs :=
  if negb (effectRanOnce refs) then
    {| effectRanOnce := true;
       appended := appended refs ++ [mk_message "user" searchQuery] |}
  else refs.

(** The runs of that effect, one per value of [searchQuery] it is run
    with (on mount and whenever a dependency changes). *)
Definition run_effects (queries : list string) (refs : Refs) : Refs :=
  foldl (fun refs searchQuery => append_once searchQuery refs) refs queries.

(** The value of [!isSearchLoading && sources.length && <References/>]:
    [false], a number, or the element.  React shows nothing for [false]
    and the digits for a number. *)
Inductive Child (Src : Type) :=
| ChildFalse
| ChildNumber (n : nat)
| ChildReferences (sources : list Src).
Arguments ChildFalse {Src}.
Arguments ChildNumber {Src} n.
Arguments ChildReferences {Src} sources.

Definition sources_child {Src} (isSearchLoading : bool) (sources : list Src) : Child Src :=
  if negb isSearchLoading then
    match length sources with
    | 0 => ChildNumber (length sources)
    | _ => ChildReferences sources
    end
  else ChildFalse.

(** The cells of the message grid. *)
Inductive Node (Src : Type) :=
| QuestionCell (message : Message)
| EmptyCell
| AnswerCell (message : Message) (isLoading : bool)
| SourcesCell (child : Child Src)
| Separator (ref : bool).   (* [ref]: the node is given [setSeparatorRef] *)
Arguments QuestionCell {Src} message.
Arguments EmptyCell {Src}.
Arguments AnswerCell {Src} message isLoading.
Arguments SourcesCell {Src} child.
Arguments Separator {Src} ref.

(** The fragment that the callback of [messages.map] returns. *)
Definition fragment {Src} (messages_length : nat) (isLoading isSearchLoading : bool)
    (sources : list Src) (index : nat) (message : Message) : list (Node Src) :=
  (if Nat.eqb (index mod 2) 0 then
     [QuestionCell message; EmptyCell]
   else
     [AnswerCell message isLoading; SourcesCell (sources_child isSearchLoading sources)])
  ++ (if Nat.eqb (index mod 2) 1 then
        [Separator (Nat.eqb index (messages_length - 1))]
      else []).

(** The children of the first grid, in document order. *)
Definition message_grid {Src} (messages : list Message) (isLoading isSearchLoading : bool)
    (sources : list Src) : list (Node Src) :=
  concat (imap (fragment (length messages) isLoading isSearchLoading sources) messages).

Definition is_separator {Src} (n : Node Src) : bool :=
  match n with Separator _ => true | _ => false end.

Definition has_ref {Src} (n : Node Src) : bool :=
  match n with Separator ref => ref | _ => false end.

Definition shows_zero {Src} (n : Node Src) : bool :=
  match n with SourcesCell (ChildNumber 0) => true | _ => false end.

End Conversation.

(** ** [ApiResponseViewer] (frontend/components/custom/api-response-viewer.tsx) *)

Module ApiResponseViewer.

(** The line feed of the template literals and of [join('\n')]. *)
Definition LF : ascii := ascii_of_nat 10.

(** [items.join(sep)] on an array of strings. *)
Fixpoint join (sep : string) (items : list string) : string :=
  match items with
  | [] => ""
  | x :: rest =>
      match rest with
      | [] => x
      | _ :: _ => x +:+ sep +:+ join sep rest
      end
  end.

(** The 'headers' case of [getCurrentContent]; [entries] is
    [Object.entries(response.headers)]. *)
Definition headers_content (entries : list (string * string)) : string :=
  join (String LF "") ((fun '(key, value) => key +:+ ": " +:+ value) <$> entries).

(** [markdownTable] in the 'headers' case of [renderContent]. *)
Definition markdownTable (entries : list (string * string)) : string :=
  "| Header | Value |" +:+ String LF "" +:+ "|-|-|" +:+ String LF "" +:+
  join (String LF "")
    ((fun '(key, value) => "| " +:+ key +:+ " | " +:+ value +:+ " |") <$> entries).

End ApiResponseViewer.

(** ** Strings *)

Lemma append_assoc (a b c : string) : (a +:+ b) +:+ c = a +:+ b +:+ c.
Proof.
  induction a as [|ch a IH]; [reflexivity|].
  change (String ch ((a +:+ b) +:+ c) = String ch (a +:+ b +:+ c)).
  by rewrite IH.
Qed.

(** Two ways to cut one string: one of the heads continues the other. *)
Lemma append_eq_split (a b x y : string) :
  a +:+ x = b +:+ y →
  (∃ r, b = a +:+ r ∧ x = r +:+ y) ∨ (∃ r, a = b +:+ r ∧ y = r +:+ x).
Proof.
  revert b; induction a as [|ch a IH]; intros b H; simpl in H.
  - left; exists b; split; [reflexivity | exact H].
  - destruct b as [|ch' b]; simpl in H.
    + right; exists (String ch a); split; [reflexivity | by rewrite H].
    + injection H as -> H. destruct (IH _ H) as [[r [-> ->]]|[r [-> ->]]].
      * left; exists r; split; reflexivity.
      * right; exists r; split; reflexivity.
Qed.

Lemma split_all_cons (sep : ascii) (s : string) :
  ∃ piece pieces, split_all sep s = piece :: pieces.
Proof.
  induction s as [|c s [p [ps IH]]]; simpl; [by eauto|].
  destruct (Ascii.eqb c sep); [by eauto|]. rewrite IH; eauto.
Qed.

Lemma split_all_no_sep (sep : ascii) (s : string) :
  occurs sep s = false → split_all sep s = [s].
Proof.
  induction s as [|c s IH]; simpl; [reflexivity|].
  destruct (Ascii.eqb c sep); simpl; [discriminate|].
  intros H; by rewrite (IH H).
Qed.

Lemma split_all_append (sep : ascii) (a b : string) :
  occurs sep a = false →
  split_all sep (a +:+ String sep b) = a :: split_all sep b.
Proof.
  induction a as [|c a IH]; simpl.
  - by rewrite Ascii.eqb_refl.
  - destruct (Ascii.eqb c sep); simpl; [discriminate|].
    intros H; by rewrite (IH H).
Qed.

(** ** The function under the cache *)

Lemma fn_openai (c : Connection.t) (nw : Network) :
  Connection.type c = "openai" →
  fetchModelsByProvider_fn c nw =
    (Normal ((fun n => record_of (Connection.id c +:+ "/" +:+ n) c) <$>
               ["gpt-3.5-turbo-0125"; "gpt-4-turbo"; "gpt-3.5-turbo"; "gpt-4o-mini"]), nw).
Proof. intros H. unfold fetchModelsByProvider_fn. by rewrite H. Qed.

Lemma fn_groq (c : Connection.t) (nw : Network) :
  Connection.type c = "groq" →
  fetchModelsByProvider_fn c nw =
    (Normal ((fun n => record_of (Connection.id c +:+ "/" +:+ n) c) <$>
               ["llama3-8b-8192"; "llama3-70b-8192"; "mixtral-8x7b-32768"; "gemma-7b-it"]), nw).
Proof. intros H. unfold fetchModelsByProvider_fn. by rewrite H. Qed.

Lemma fn_default (c : Connection.t) (nw : Network) :
  Connection.type c ≠ "openai" → Connection.type c ≠ "groq" →
  Connection.type c ≠ "ollama" →
  fetchModelsByProvider_fn c nw = (Normal [], nw).
Proof.
  intros H1 H2 H3. unfold fetchModelsByProvider_fn.
  by rewrite (proj2 (String.eqb_neq _ _) H1), (proj2 (String.eqb_neq _ _) H2),
    (proj2 (String.eqb_neq _ _) H3).
Qed.

(** The ollama branch, once the URL is known. *)
Lemma fn_ollama (c : Connection.t) (nw : Network) (url : string) :
  Connection.type c = "ollama" →
  bind (get (Connection.data c) "url") to_string = Normal url →
  fetchModelsByProvider_fn c nw =
    (bind (fetch (url +:+ "/api/tags") nw).1 (fun response =>
     bind (json response) (fun body =>
     bind (get body "models") (fun records =>
     array_map records (fun model =>
       bind (get model "name") (fun name =>
       bind (to_string name) (fun name =>
       Normal (record_of ((Connection.id c +:+ "/") +:+ name) c))))))),
     (fetch (url +:+ "/api/tags") nw).2).
Proof. intros H Hu. unfold fetchModelsByProvider_fn. by rewrite H, Hu. Qed.

Lemma fn_ollama_no_url (c : Connection.t) (nw : Network) (e : js_error) :
  Connection.type c = "ollama" →
  bind (get (Connection.data c) "url") to_string = Throw e →
  fetchModelsByProvider_fn c nw = (Throw e, nw).
Proof. intros H Hu. unfold fetchModelsByProvider_fn. by rewrite H, Hu. Qed.

(** The four branches, by the type tag. *)
Lemma type_cases (c : Connection.t) :
  Connection.type c = "openai" ∨ Connection.type c = "groq" ∨
  Connection.type c = "ollama" ∨
  (Connection.type c ≠ "openai" ∧ Connection.type c ≠ "groq" ∧
   Connection.type c ≠ "ollama").
Proof.
  destruct (decide (Connection.type c = "openai")); [by left|].
  destruct (decide (Connection.type c = "groq")); [by right; left|].
  destruct (decide (Connection.type c = "ollama")); [by right; right; left|].
  by right; right; right.
Qed.

Lemma fn_respond (c : Connection.t) (nw : Network) :
  respond (fetchModelsByProvider_fn c nw).2 = respond nw.
Proof.
  destruct (type_cases c) as [H|[H|[H|(H1 & H2 & H3)]]].
  - by rewrite fn_openai.
  - by rewrite fn_groq.
  - destruct (bind (get (Connection.data c) "url") to_string) as [url|e] eqn:Hu.
    + by rewrite (fn_ollama _ _ _ H Hu).
    + by rewrite (fn_ollama_no_url _ _ _ H Hu).
  - by rewrite fn_default.
Qed.

(** One run of the function issues at most one request. *)
Lemma fn_requests (c : Connection.t) (nw : Network) :
  requests (fetchModelsByProvider_fn c nw).2 = requests nw ∨
  ∃ url, requests (fetchModelsByProvider_fn c nw).2 = requests nw ++ [url].
Proof.
  destruct (type_cases c) as [H|[H|[H|(H1 & H2 & H3)]]].
  - left; by rewrite fn_openai.
  - left; by rewrite fn_groq.
  - destruct (bind (get (Connection.data c) "url") to_string) as [url|e] eqn:Hu.
    + right; rewrite (fn_ollama _ _ _ H Hu); simpl; eauto.
    + left; by rewrite (fn_ollama_no_url _ _ _ H Hu).
  - left; by rewrite fn_default.
Qed.

(** Without the ollama tag the function does not touch the network. *)
Lemma fn_static_network (c : Connection.t) (nw : Network) :
  Connection.type c ≠ "ollama" → (fetchModelsByProvider_fn c nw).2 = nw.
Proof.
  intros Hn. destruct (type_cases c) as [H|[H|[H|(H1 & H2 & H3)]]].
  - by rewrite fn_openai.
  - by rewrite fn_groq.
  - done.
  - by rewrite fn_default.
Qed.

(** ** The memo table *)

Section Cache.
Context {K V S : Type} `{EqDecision K}.
Variable fn : K → S → V * S.

Lemma cache_hit (k : K) (st : list (K * V) * S) (v : V) :
  cached k st.1 = Some v → cache fn k st = (v, st).
Proof. intros Hk. unfold cache. by rewrite Hk. Qed.

Lemma cache_miss (k : K) (st : list (K * V) * S) :
  cached k st.1 = None →
  cache fn k st = ((fn k st.2).1, ((k, (fn k st.2).1) :: st.1, (fn k st.2).2)).
Proof. intros Hk. unfold cache. rewrite Hk. by destruct (fn k st.2). Qed.

(** After a call the table holds the returned value under the argument. *)
Lemma cache_stores (k : K) (st : list (K * V) * S) :
  cached k (cache fn k st).2.1 = Some (cache fn k st).1.
Proof.
  destruct (cached k st.1) as [v|] eqn:Hk.
  - by rewrite (cache_hit _ _ _ Hk).
  - rewrite (cache_miss _ _ Hk); simpl. by rewrite decide_True.
Qed.

(** An entry is never replaced nor dropped. *)
Lemma cache_keeps (k k' : K) (st : list (K * V) * S) (v : V) :
  cached k st.1 = Some v → cached k (cache fn k' st).2.1 = Some v.
Proof.
  intros Hk. destruct (cached k' st.1) as [v'|] eqn:Hk'.
  - by rewrite (cache_hit _ _ _ Hk').
  - rewrite (cache_miss _ _ Hk'); simpl.
    destruct (decide (k = k')) as [->|]; [congruence | done].
Qed.

(** What a call can find in the table afterwards: an old entry or the
    value it has just computed. *)
Lemma cache_entries (k k' : K) (st : list (K * V) * S) (v : V) :
  cached k (cache fn k' st).2.1 = Some v →
  cached k st.1 = Some v ∨
  (k = k' ∧ cached k' st.1 = None ∧ v = (fn k' st.2).1).
Proof.
  destruct (cached k' st.1) as [v'|] eqn:Hk'.
  - rewrite (cache_hit _ _ _ Hk'); auto.
  - rewrite (cache_miss _ _ Hk'); simpl.
    destruct (decide (k = k')) as [->|]; [|auto].
    intros [= <-]; auto.
Qed.

(** The second of two calls with one argument returns the value of the
    first and changes nothing. *)
Lemma cache_again (k : K) (st : list (K * V) * S) :
  cache fn k (cache fn k st).2 = ((cache fn k st).1, (cache fn k st).2).
Proof. apply cache_hit, cache_stores. Qed.
End Cache.

(** ** The cached function *)

Lemma fetch_models_respond (c : Connection.t) (rt : Runtime) :
  respond (network (fetchModelsByProvider c rt).2) = respond (network rt).
Proof.
  unfold fetchModelsByProvider, network.
  destruct (cached c rt.1) as [v|] eqn:Hc.
  - by rewrite (cache_hit _ _ _ _ Hc).
  - rewrite (cache_miss _ _ _ Hc); simpl. apply fn_respond.
Qed.

(** A call returns what the function returns at some moment of the
    network, provided the table is sound. *)
Lemma fetch_models_result (c : Connection.t) (rt : Runtime) :
  cache_sound rt →
  ∃ nw, respond nw = respond (network rt) ∧
        (fetchModelsByProvider c rt).1 = (fetchModelsByProvider_fn c nw).1.
Proof.
  intros Hs. unfold fetchModelsByProvider.
  destruct (cached c rt.1) as [v|] eqn:Hc.
  - rewrite (cache_hit _ _ _ _ Hc); simpl. by apply Hs.
  - rewrite (cache_miss _ _ _ Hc); simpl. by exists rt.2.
Qed.

Lemma fetch_models_sound (c : Connection.t) (rt : Runtime) :
  cache_sound rt → cache_sound (fetchModelsByProvider c rt).2.
Proof.
  intros Hs c' r Hc'. rewrite fetch_models_respond.
  apply cache_entries in Hc' as [Hold|(-> & _ & ->)].
  - by apply Hs.
  - by exists rt.2.
Qed.

(** A call adds at most one request, and none when the type is not
    'ollama' or the argument is in the table. *)
Lemma fetch_models_requests (c : Connection.t) (rt : Runtime) :
  requests (network (fetchModelsByProvider c rt).2) = requests (network rt) ∨
  (cached c (memo rt) = None ∧ Connection.type c = "ollama" ∧
   ∃ url, requests (network (fetchModelsByProvider c rt).2) = requests (network rt) ++ [url]).
Proof.
  unfold fetchModelsByProvider, network, memo.
  destruct (cached c rt.1) as [v|] eqn:Hc.
  - left. by rewrite (cache_hit _ _ _ _ Hc).
  - rewrite (cache_miss _ _ _ Hc); simpl.
    destruct (decide (Connection.type c = "ollama")) as [Ho|Ho].
    + destruct (fn_requests c rt.2) as [->|Hr]; auto.
    + left. by rewrite fn_static_network.
Qed.

Lemma cache_sound_empty (nw : Network) : cache_sound ([], nw).
Proof. intros c r H; discriminate H. Qed.

(** ** One pass *)

Lemma resolve_fst (c : Connection.t) (rt : Runtime) :
  (resolve c rt).1 =
    bind (fetchModelsByProvider c rt).1 (fun records => Normal (with_name <$> records)).
Proof. unfold resolve. by destruct (fetchModelsByProvider c rt). Qed.

Lemma resolve_snd (c : Connection.t) (rt : Runtime) :
  (resolve c rt).2 = (fetchModelsByProvider c rt).2.
Proof. unfold resolve. by destruct (fetchModelsByProvider c rt). Qed.

Lemma start_all_cons (c : Connection.t) (cs : list Connection.t) (rt : Runtime) :
  start_all (c :: cs) rt =
    ((resolve c rt).1 :: (start_all cs (resolve c rt).2).1,
     (start_all cs (resolve c rt).2).2).
Proof.
  simpl. destruct (resolve c rt) as [r rt1]; simpl.
  by destruct (start_all cs rt1).
Qed.

Lemma start_all_sound (cs : list Connection.t) (rt : Runtime) :
  cache_sound rt → cache_sound (start_all cs rt).2.
Proof.
  revert rt; induction cs as [|c cs IH]; intros rt Hs; [done|].
  rewrite start_all_cons; simpl. apply IH. rewrite resolve_snd.
  by apply fetch_models_sound.
Qed.

Lemma start_all_keeps (c : Connection.t) (cs : list Connection.t) (rt : Runtime)
    (v : completion (list Model.t)) :
  cached c (memo rt) = Some v → cached c (memo (start_all cs rt).2) = Some v.
Proof.
  revert rt; induction cs as [|c' cs IH]; intros rt Hc; [done|].
  rewrite start_all_cons; simpl. apply IH. rewrite resolve_snd.
  by apply cache_keeps.
Qed.

Lemma pass_runtime (settings : option Settings.t) (h : Hook) :
  runtime (fetchAvailableModels settings h) =
    (start_all (connections_of settings) (runtime h)).2.
Proof.
  unfold fetchAvailableModels.
  destruct (start_all (connections_of settings) (runtime h)) as [ps rt']; simpl.
  by destruct (promise_all ps).
Qed.

Lemma pass_catalog (settings : option Settings.t) (h : Hook) :
  availableModels (fetchAvailableModels settings h) =
    match promise_all (start_all (connections_of settings) (runtime h)).1 with
    | Normal models => concat models
    | Throw _ => []
    end.
Proof.
  unfold fetchAvailableModels.
  destruct (start_all (connections_of settings) (runtime h)) as [ps rt']; simpl.
  by destruct (promise_all ps).
Qed.

Lemma pass_console (settings : option Settings.t) (h : Hook) :
  console (fetchAvailableModels settings h) =
    match promise_all (start_all (connections_of settings) (runtime h)).1 with
    | Normal _ => console h
    | Throw error => console h ++ [error]
    end.
Proof.
  unfold fetchAvailableModels.
  destruct (start_all (connections_of settings) (runtime h)) as [ps rt']; simpl.
  by destruct (promise_all ps).
Qed.

Lemma use_sound (history : list (option Settings.t)) (h : Hook) :
  cache_sound (runtime h) → cache_sound (runtime (useAvailableModels history h)).
Proof.
  revert h; induction history as [|s history IH]; intros h Hs; [done|].
  simpl. apply IH. rewrite pass_runtime. by apply start_all_sound.
Qed.

(** The memo table is sound in every state that a mounted hook reaches
    from an empty table. *)
Lemma reachable_sound (history : list (option Settings.t)) (nw : Network) :
  cache_sound (runtime (useAvailableModels history (mount ([], nw)))).
Proof. apply use_sound, cache_sound_empty. Qed.

(** [Promise.all] of settled promises. *)
Lemma promise_all_normal {A} (ps : list (completion A)) (vs : list A) :
  promise_all ps = Normal vs ↔ ps = Normal <$> vs.
Proof.
  revert vs; induction ps as [|p ps IH]; intros vs; simpl.
  - split; [intros [= <-]; done | by destruct vs].
  - destruct p as [v|e]; simpl.
    + destruct (promise_all ps) as [ws|e] eqn:Hp; simpl.
      * split.
        -- intros [= <-]. simpl. f_equal. by apply IH.
        -- destruct vs as [|v' vs]; [done|]. intros [= -> Hps].
           apply IH in Hps. congruence.
      * split; [done|]. destruct vs as [|v' vs]; [done|].
        intros [= -> Hps]. apply IH in Hps. congruence.
    + split; [done | by destruct vs].
Qed.


(** ** Per-connection resolution *)

(** C1: for a connection of type 'openai' or 'groq', resolution returns
    the four hardcoded models of that type, in the order of the source,
    each with the id [connection id ++ "/" ++ model name] and pointing
    back to the connection, and no request is issued. *)
Theorem fixed_catalog_static_list (c : Connection.t) (rt : Runtime) :
  cache_sound rt →
  Connection.type c = "openai" ∨ Connection.type c = "groq" →
  (fetchModelsByProvider c rt).1 =
    Normal ((fun n => record_of (Connection.id c +:+ "/" +:+ n) c) <$>
              (if String.eqb (Connection.type c) "openai"
               then ["gpt-3.5-turbo-0125"; "gpt-4-turbo"; "gpt-3.5-turbo"; "gpt-4o-mini"]
               else ["llama3-8b-8192"; "llama3-70b-8192"; "mixtral-8x7b-32768"; "gemma-7b-it"]))
  ∧ requests (network (fetchModelsByProvider c rt).2) = requests (network rt).
Proof.
  intros Hs Ht. split.
  - destruct (fetch_models_result c rt Hs) as [nw [_ ->]].
    destruct Ht as [Ht|Ht]; rewrite Ht; simpl.
    + by rewrite fn_openai.
    + by rewrite fn_groq.
  - destruct (fetch_models_requests c rt) as [Hr|(_ & Ho & _)]; [done|].
    destruct Ht as [Ht|Ht]; congruence.
Qed.

Lemma fixed_catalog_static_list_witness :
  (fetchModelsByProvider Sample.groq (Sample.fresh Sample.offline)).1 =
    Normal [ record_of "c3/llama3-8b-8192" Sample.groq;
             record_of "c3/llama3-70b-8192" Sample.groq;
             record_of "c3/mixtral-8x7b-32768" Sample.groq;
             record_of "c3/gemma-7b-it" Sample.groq ]
  ∧ requests (network (fetchModelsByProvider Sample.groq (Sample.fresh Sample.offline)).2) = [].
Proof.
  apply (fixed_catalog_static_list Sample.groq (Sample.fresh Sample.offline)).
  - intros c r H; discriminate H.
  - right; reflexivity.
Defined.

(** C2: for an 'ollama' connection whose url is [url], when the endpoint
    [url ++ "/api/tags"] answers with the body
    [{"models":[{"name":"a"},{"name":"b"}]}], resolution yields exactly
    the two models with ids [connection id ++ "/a"] and
    [connection id ++ "/b"], in that order. *)
Theorem ollama_two_models (c : Connection.t) (rt : Runtime) (url : string) :
  cache_sound rt →
  Connection.type c = "ollama" →
  get (Connection.data c) "url" = Normal (JString url) →
  (∀ n, respond (network rt) n (url +:+ "/api/tags") =
          Response (Some (JObject [("models", JArray [JObject [("name", JString "a")];
                                                      JObject [("name", JString "b")]])]))) →
  (fetchModelsByProvider c rt).1 =
    Normal [ record_of (Connection.id c +:+ "/a") c;
             record_of (Connection.id c +:+ "/b") c ].
Proof.
  intros Hs Ht Hu Hr.
  destruct (fetch_models_result c rt Hs) as [nw [Hnw ->]].
  rewrite (fn_ollama c nw url Ht); [|by rewrite Hu].
  unfold fetch; simpl. rewrite Hnw, Hr; simpl.
  by rewrite !append_assoc.
Qed.

Lemma ollama_two_models_witness :
  (fetchModelsByProvider Sample.ollama (Sample.fresh (Sample.serving Sample.tags_ab))).1 =
    Normal [ record_of "c1/a" Sample.ollama; record_of "c1/b" Sample.ollama ].
Proof.
  apply (ollama_two_models Sample.ollama (Sample.fresh (Sample.serving Sample.tags_ab))
           "http://localhost:11434").
  - intros c r H; discriminate H.
  - reflexivity.
  - reflexivity.
  - intros n; reflexivity.
Defined.

(** C5: of two calls with the same connection object, the second is
    answered from the memo table: it returns what the first returned and
    issues no request, also when other connections were resolved in
    between; the two calls together issue at most one request. *)
Theorem memoized_second_call (c : Connection.t) (others : list Connection.t) (rt : Runtime) :
  let first := fetchModelsByProvider c rt in
  let between := start_all others first.2 in
  let second := fetchModelsByProvider c between.2 in
  cached c (memo between.2) = Some first.1
  ∧ second = (first.1, between.2)
  ∧ length (requests (network first.2)) ≤ S (length (requests (network rt))).
Proof.
  intros first between second.
  assert (Hk : cached c (memo between.2) = Some first.1).
  { apply start_all_keeps, cache_stores. }
  split; [exact Hk|]. split.
  - by apply cache_hit.
  - destruct (fetch_models_requests c rt) as [Hr|(_ & _ & url & Hr)];
      fold first in Hr; rewrite Hr; [lia|].
    rewrite length_app; simpl; lia.
Qed.

(** C6: for a connection whose type is none of 'openai', 'groq' and
    'ollama', resolution is fulfilled with the empty list: nothing is
    thrown, and the network is left as it was. *)
Theorem unknown_type_empty (c : Connection.t) (rt : Runtime) :
  cache_sound rt →
  Connection.type c ≠ "openai" → Connection.type c ≠ "groq" →
  Connection.type c ≠ "ollama" →
  (fetchModelsByProvider c rt).1 = Normal []
  ∧ (resolve c rt).1 = Normal []
  ∧ requests (network (fetchModelsByProvider c rt).2) = requests (network rt).
Proof.
  intros Hs H1 H2 H3.
  assert (Hr : (fetchModelsByProvider c rt).1 = Normal []).
  { destruct (fetch_models_result c rt Hs) as [nw [_ ->]]. by rewrite fn_default. }
  split; [exact Hr|]. split.
  - by rewrite resolve_fst, Hr.
  - by destruct (fetch_models_requests c rt) as [?|(_ & ? & _)].
Qed.

Lemma unknown_type_empty_witness :
  (fetchModelsByProvider Sample.unknown (Sample.fresh Sample.offline)).1 = Normal []
  ∧ (resolve Sample.unknown (Sample.fresh Sample.offline)).1 = Normal []
  ∧ requests (network (fetchModelsByProvider Sample.unknown (Sample.fresh Sample.offline)).2) = [].
Proof.
  apply (unknown_type_empty Sample.unknown (Sample.fresh Sample.offline)).
  - intros c r H; discriminate H.
  - discriminate.
  - discriminate.
  - discriminate.
Defined.

(** ** Ownership of the resolved models *)

Lemma map_items_Forall {A} (P : A → Prop) (f : jsval → completion A)
    (items : list jsval) (ys : list A) :
  (∀ x y, f x = Normal y → P y) →
  map_items f items = Normal ys → Forall P ys.
Proof.
  intros Hf. revert ys; induction items as [|x items IH]; intros ys; simpl.
  - intros [= <-]. constructor.
  - destruct (f x) as [y|e] eqn:Hx; simpl; [|discriminate].
    destruct (map_items f items) as [zs|e]; simpl; [|discriminate].
    intros [= <-]. constructor; [by eapply Hf | by apply IH].
Qed.

Lemma record_owned (c : Connection.t) (n : string) :
  owned_by c (record_of (Connection.id c +:+ "/" +:+ n) c).
Proof. split; [reflexivity | by exists n]. Qed.

(** Every branch of the function returns models of its argument. *)
Lemma fn_owned (c : Connection.t) (nw : Network) (ms : list Model.t) :
  (fetchModelsByProvider_fn c nw).1 = Normal ms → Forall (owned_by c) ms.
Proof.
  destruct (type_cases c) as [H|[H|[H|(H1 & H2 & H3)]]].
  - rewrite fn_openai by done. intros [= <-].
    repeat (constructor; [apply record_owned|]). constructor.
  - rewrite fn_groq by done. intros [= <-].
    repeat (constructor; [apply record_owned|]). constructor.
  - destruct (bind (get (Connection.data c) "url") to_string) as [url|e] eqn:Hu.
    + rewrite (fn_ollama _ _ _ H Hu); simpl.
      destruct (respond nw _ _) as [|[body|]]; simpl; try discriminate.
      destruct (get body "models") as [records|e]; simpl; [|discriminate].
      destruct records; simpl; try discriminate.
      apply map_items_Forall. intros x y.
      destruct (get x "name") as [name|e]; simpl; [|discriminate].
      destruct (to_string name) as [s|e]; simpl; [|discriminate].
      intros [= <-]. rewrite append_assoc. apply record_owned.
    + rewrite (fn_ollama_no_url _ _ _ H Hu); discriminate.
  - rewrite fn_default by done. intros [= <-]. constructor.
Qed.

Lemma fetch_models_owned (c : Connection.t) (rt : Runtime) (ms : list Model.t) :
  cache_sound rt →
  (fetchModelsByProvider c rt).1 = Normal ms → Forall (owned_by c) ms.
Proof.
  intros Hs. destruct (fetch_models_result c rt Hs) as [nw [_ ->]].
  apply fn_owned.
Qed.

Lemma with_name_owned (c : Connection.t) (m : Model.t) :
  owned_by c m → owned_by c (with_name m).
Proof. by intros [Hc Hn]. Qed.

Lemma resolve_owned (c : Connection.t) (rt : Runtime) (ms : list Model.t) :
  cache_sound rt →
  (resolve c rt).1 = Normal ms →
  Forall (fun m => owned_by (Model.connection m) m) ms.
Proof.
  intros Hs. rewrite resolve_fst.
  destruct (fetchModelsByProvider c rt).1 as [records|e] eqn:Hr; simpl; [|discriminate].
  intros [= <-]. apply Forall_fmap.
  eapply Forall_impl; [by eapply fetch_models_owned|].
  intros m Hm; simpl. destruct Hm as [Hc Hn]. split; [done|].
  simpl. by rewrite Hc.
Qed.

Lemma start_all_owned (cs : list Connection.t) (rt : Runtime) :
  cache_sound rt →
  Forall (fun r => ∀ ms, r = Normal ms →
            Forall (fun m => owned_by (Model.connection m) m) ms)
         (start_all cs rt).1.
Proof.
  revert rt; induction cs as [|c cs IH]; intros rt Hs; [constructor|].
  rewrite start_all_cons; simpl. constructor.
  - intros ms Hms. by eapply resolve_owned.
  - apply IH. rewrite resolve_snd. by apply fetch_models_sound.
Qed.

Lemma pass_owned (settings : option Settings.t) (h : Hook) :
  cache_sound (runtime h) →
  Forall (fun m => owned_by (Model.connection m) m)
         (availableModels (fetchAvailableModels settings h)).
Proof.
  intros Hs. rewrite pass_catalog.
  destruct (promise_all _) as [models|e] eqn:Hp; [|constructor].
  apply promise_all_normal in Hp. apply Forall_concat.
  pose proof (start_all_owned (connections_of settings) (runtime h) Hs) as Ho.
  rewrite Hp in Ho. apply Forall_fmap in Ho.
  eapply Forall_impl; [exact Ho|]. intros ms Hms; by apply Hms.
Qed.

Lemma use_owned (history : list (option Settings.t)) (h : Hook) :
  cache_sound (runtime h) →
  Forall (fun m => owned_by (Model.connection m) m) (availableModels h) →
  Forall (fun m => owned_by (Model.connection m) m)
         (availableModels (useAvailableModels history h)).
Proof.
  revert h; induction history as [|s history IH]; intros h Hs Ho; [done|].
  simpl. apply IH.
  - rewrite pass_runtime. by apply start_all_sound.
  - by apply pass_owned.
Qed.

(** Two owned models with one id: the connections have one id, or the id
    of one continues the id of the other. *)
Lemma owned_same_id (m1 m2 : Model.t) :
  owned_by (Model.connection m1) m1 → owned_by (Model.connection m2) m2 →
  Model.id m1 = Model.id m2 →
  Connection.id (Model.connection m1) = Connection.id (Model.connection m2)
  ∨ extends (Model.connection m1) (Model.connection m2)
  ∨ extends (Model.connection m2) (Model.connection m1).
Proof.
  intros [_ [n1 H1]] [_ [n2 H2]] Heq. rewrite H1, H2 in Heq.
  apply append_eq_split in Heq as [[r [Hr Hn]]|[r [Hr Hn]]].
  - destruct r as [|ch r].
    + left. rewrite Hr. clear. induction (Connection.id _) as [|a s IH]; [done|].
      change (String a s = String a (s +:+ "")). by rewrite <- IH.
    + right; left. injection Hn as <- _. by exists r.
  - destruct r as [|ch r].
    + left. rewrite Hr. clear. induction (Connection.id _) as [|a s IH]; [done|].
      change (String a (s +:+ "") = String a s). by rewrite IH.
    + right; right. injection Hn as <- _. by exists r.
Qed.

Lemma extends_occurs (c1 c2 : Connection.t) :
  extends c1 c2 → occurs "/" (Connection.id c2) = true.
Proof.
  intros [rest ->]. induction (Connection.id c1) as [|a s IH]; [done|].
  change (Ascii.eqb a "/" || occurs "/" (s +:+ "/" +:+ rest) = true).
  rewrite IH. by destruct (Ascii.eqb a "/").
Qed.

(** C7: every model that resolution returns for a connection, in every
    branch, and every model of the catalog after any number of passes,
    points back to its connection and has an id that starts with the id of
    that connection and a '/'.  Two models of the catalog whose connections
    have different ids have different ids whenever neither connection id,
    followed by '/', is the beginning of the other connection id. *)
Theorem model_ids_owned (history : list (option Settings.t)) (c : Connection.t)
    (rt : Runtime) :
  cache_sound rt →
  let catalog := availableModels (useAvailableModels history (mount rt)) in
  (∀ ms, (fetchModelsByProvider c rt).1 = Normal ms → Forall (owned_by c) ms)
  ∧ Forall (fun m => owned_by (Model.connection m) m) catalog
  ∧ (∀ m1 m2, m1 ∈ catalog → m2 ∈ catalog →
       Connection.id (Model.connection m1) ≠ Connection.id (Model.connection m2) →
       ¬ extends (Model.connection m1) (Model.connection m2) →
       ¬ extends (Model.connection m2) (Model.connection m1) →
       Model.id m1 ≠ Model.id m2).
Proof.
  intros Hs catalog.
  assert (Ho : Forall (fun m => owned_by (Model.connection m) m) catalog).
  { apply use_owned; [exact Hs | constructor]. }
  split; [intros ms; by apply fetch_models_owned|]. split; [exact Ho|].
  intros m1 m2 Hm1 Hm2 Hne Hx1 Hx2 Heq.
  rewrite Forall_forall in Ho.
  destruct (owned_same_id m1 m2 (Ho _ Hm1) (Ho _ Hm2) Heq) as [?|[?|?]]; done.
Qed.

Lemma model_ids_owned_witness :
  let rt := Sample.fresh (Sample.serving Sample.tags_ab) in
  let catalog :=
    availableModels
      (useAvailableModels [Sample.settings_with [Sample.ollama; Sample.openai]] (mount rt)) in
  (∀ ms, (fetchModelsByProvider Sample.ollama rt).1 = Normal ms →
         Forall (owned_by Sample.ollama) ms)
  ∧ Forall (fun m => owned_by (Model.connection m) m) catalog
  ∧ (∀ m1 m2, m1 ∈ catalog → m2 ∈ catalog →
       Connection.id (Model.connection m1) ≠ Connection.id (Model.connection m2) →
       ¬ extends (Model.connection m1) (Model.connection m2) →
       ¬ extends (Model.connection m2) (Model.connection m1) →
       Model.id m1 ≠ Model.id m2).
Proof.
  apply (model_ids_owned [Sample.settings_with [Sample.ollama; Sample.openai]]
           Sample.ollama (Sample.fresh (Sample.serving Sample.tags_ab))).
  intros c r H; discriminate H.
Defined.

(** With the connection ids "a" and "a/b", the model "b/gpt-4-turbo" of
    the first and the model "gpt-4-turbo" of the second get one id. *)
Lemma shared_id_across_connections :
  ¬ ids_distinct_across
      (availableModels
         (fetchAvailableModels (Sample.settings_with [Sample.outer; Sample.inner])
            (mount (Sample.fresh (Sample.serving Sample.tags_clash))))).
Proof.
  intros H.
  apply (H {| Model.id := "a/b/gpt-4-turbo"; Model.connection := Sample.outer;
              Model.name := Some "b" |}
           {| Model.id := "a/b/gpt-4-turbo"; Model.connection := Sample.inner;
              Model.name := Some "b" |}).
  - apply list_elem_of_In. vm_compute. tauto.
  - apply list_elem_of_In. vm_compute. tauto.
  - discriminate.
  - reflexivity.
Qed.

(** When no connection id contains '/', ids never collide across
    connections with different ids. *)
Lemma plain_ids_distinct (catalog : list Model.t) :
  Forall (fun m => owned_by (Model.connection m) m) catalog →
  Forall (fun m => occurs "/" (Connection.id (Model.connection m)) = false) catalog →
  ids_distinct_across catalog.
Proof.
  rewrite !Forall_forall. intros Ho Hp m1 m2 Hm1 Hm2 Hne Heq.
  destruct (owned_same_id m1 m2 (Ho _ Hm1) (Ho _ Hm2) Heq) as [?|[Hx|Hx]]; [done| |];
    apply extends_occurs in Hx.
  - rewrite (Hp _ Hm2) in Hx; discriminate.
  - rewrite (Hp _ Hm1) in Hx; discriminate.
Qed.

(** ** Display names *)

(** The display name is the part of the model name before its first '/',
    when the connection id contains none. *)
Lemma display_name_first_piece (c : Connection.t) (n : string) :
  occurs "/" (Connection.id c) = false →
  ∃ piece pieces, split_all "/" n = piece :: pieces ∧
    Model.name (with_name (record_of (Connection.id c +:+ "/" +:+ n) c)) = Some piece.
Proof.
  intros Hc. destruct (split_all_cons "/" n) as [piece [pieces Hn]].
  exists piece, pieces. split; [exact Hn|].
  unfold with_name, record_of, split; simpl.
  change ("/" +:+ n) with (String "/" n).
  by rewrite (split_all_append _ _ _ Hc), Hn.
Qed.

(** X10: When neither the connection id nor the model name contains '/',
    the display name derived from the id is the whole model name. *)
Lemma display_name_plain (c : Connection.t) (n : string) :
  occurs "/" (Connection.id c) = false → occurs "/" n = false →
  Model.name (with_name (record_of (Connection.id c +:+ "/" +:+ n) c)) = Some n.
Proof.
  intros Hc Hn. destruct (display_name_first_piece c n Hc) as [p [ps [Hs ->]]].
  rewrite (split_all_no_sep _ _ Hn) in Hs. congruence.
Qed.

(** C3: for the connection "c1" and the model name "library/llama3" that
    its endpoint lists, the catalog holds the id "c1/library/llama3" with
    the display name "library", not the id without its "c1/" prefix. *)
Theorem display_name_truncated :
  availableModels
    (fetchAvailableModels (Sample.settings_with [Sample.ollama])
       (mount (Sample.fresh (Sample.serving Sample.tags_nested))))
  = [ {| Model.id := "c1/library/llama3"; Model.connection := Sample.ollama;
         Model.name := Some "library" |} ].
Proof. reflexivity. Qed.

(** ** The whole pass *)

Lemma promise_all_rejected {A} (ps : list (completion A)) :
  forallb is_normal ps = false → ∃ e, promise_all ps = Throw e.
Proof.
  induction ps as [|p ps IH]; simpl; [discriminate|].
  destruct p as [v|e]; simpl; [|by eauto].
  intros H. destruct (IH H) as [e' ->]; simpl; eauto.
Qed.

Lemma pass_rejected (settings : option Settings.t) (h : Hook) :
  forallb is_normal (start_all (connections_of settings) (runtime h)).1 = false →
  ∃ error,
    fetchAvailableModels settings h =
      {| runtime := (start_all (connections_of settings) (runtime h)).2;
         console := console h ++ [error];
         availableModels := [] |}.
Proof.
  intros Hf. apply promise_all_rejected in Hf as [e He]. exists e.
  unfold fetchAvailableModels.
  destruct (start_all (connections_of settings) (runtime h)) as [ps rt']; simpl in *.
  by rewrite He.
Qed.

(** C4: when the resolution of some connection of the list is rejected,
    whatever the reason, the pass ends with the empty catalog, none of the
    models of the other connections, and one more line on the console;
    nothing is thrown to the caller. *)
Theorem failure_empties_catalog (settings : option Settings.t) (h : Hook) :
  forallb is_normal (start_all (connections_of settings) (runtime h)).1 = false →
  availableModels (fetchAvailableModels settings h) = []
  ∧ ∃ error, console (fetchAvailableModels settings h) = console h ++ [error].
Proof.
  intros Hf. destruct (pass_rejected settings h Hf) as [e ->]; simpl. eauto.
Qed.

Lemma failure_empties_catalog_witness :
  let h := mount (Sample.fresh Sample.offline) in
  let settings := Sample.settings_with [Sample.openai; Sample.ollama] in
  availableModels (fetchAvailableModels settings h) = []
  ∧ ∃ error, console (fetchAvailableModels settings h) = console h ++ [error].
Proof.
  apply (failure_empties_catalog
           (Sample.settings_with [Sample.openai; Sample.ollama])
           (mount (Sample.fresh Sample.offline))).
  reflexivity.
Defined.

(** The reasons for a rejection that come from the endpoint: it cannot be
    reached, its body is not JSON, or the body has no array 'models'. *)
Lemma fn_unusable (c : Connection.t) (nw : Network) (url : string) :
  Connection.type c = "ollama" →
  bind (get (Connection.data c) "url") to_string = Normal url →
  usable (respond nw (length (requests nw)) (url +:+ "/api/tags")) = false →
  ∃ e, (fetchModelsByProvider_fn c nw).1 = Throw e.
Proof.
  intros Ht Hu. rewrite (fn_ollama _ _ _ Ht Hu); simpl.
  destruct (respond nw _ _) as [|[body|]]; simpl; [by eauto| |by eauto].
  destruct (get body "models") as [records|e]; simpl; [|by eauto].
  destruct records; simpl; by eauto.
Qed.

Lemma unusable_endpoint_rejected (cs : list Connection.t) (c : Connection.t)
    (rt : Runtime) (url : string) :
  c ∈ cs →
  Connection.type c = "ollama" →
  bind (get (Connection.data c) "url") to_string = Normal url →
  (∀ n, usable (respond (network rt) n (url +:+ "/api/tags")) = false) →
  (∀ ms, cached c (memo rt) ≠ Some (Normal ms)) →
  forallb is_normal (start_all cs rt).1 = false.
Proof.
  intros Hin Ht Hu. revert rt.
  induction cs as [|c0 cs IH]; intros rt Hr Hm; [by apply elem_of_nil in Hin|].
  rewrite start_all_cons; simpl.
  assert (Hfn : ∀ ms, (fetchModelsByProvider_fn c rt.2).1 ≠ Normal ms).
  { intros ms. destruct (fn_unusable c rt.2 url Ht Hu) as [e ->]; [apply Hr | done]. }
  destruct (decide (c = c0)) as [<-|Hne].
  - rewrite resolve_fst. unfold fetchModelsByProvider.
    destruct (cached c rt.1) as [v|] eqn:Hc.
    + rewrite (cache_hit _ _ _ _ Hc); simpl.
      destruct v as [ms|e]; [by destruct (Hm ms) | done].
    + rewrite (cache_miss _ _ _ Hc); simpl.
      destruct (fetchModelsByProvider_fn c rt.2).1 as [ms|e] eqn:Hf; [|done].
      by destruct (Hfn ms).
  - apply elem_of_cons in Hin as [?|Hin]; [done|].
    rewrite (IH Hin); [by rewrite andb_false_r| |].
    + intros n. rewrite resolve_snd, fetch_models_respond. apply Hr.
    + intros ms Hc. rewrite resolve_snd in Hc.
      apply cache_entries in Hc as [Hc|(? & _)]; [by apply (Hm ms) | done].
Qed.

(** X11: An unreachable or malformed endpoint of one connection of the list
    empties the catalog of a hook that has not resolved it before. *)
Lemma unusable_endpoint_empties_catalog (settings : option Settings.t) (h : Hook)
    (c : Connection.t) (url : string) :
  c ∈ connections_of settings →
  Connection.type c = "ollama" →
  bind (get (Connection.data c) "url") to_string = Normal url →
  (∀ n, usable (respond (network (runtime h)) n (url +:+ "/api/tags")) = false) →
  cached c (memo (runtime h)) = None →
  availableModels (fetchAvailableModels settings h) = [].
Proof.
  intros Hin Ht Hu Hr Hc.
  destruct (pass_rejected settings h) as [e ->]; [|done].
  eapply unusable_endpoint_rejected; eauto.
  intros ms; by rewrite Hc.
Qed.

Example missing_models_logged :
  let h := fetchAvailableModels (Sample.settings_with [Sample.groq; Sample.ollama])
             (mount (Sample.fresh (Sample.serving Sample.tags_missing))) in
  availableModels h = [] ∧ console h = [TypeError]
  ∧ requests (network (runtime h)) = ["http://localhost:11434/api/tags"].
Proof. repeat split. Qed.

Example unreachable_logged :
  let h := fetchAvailableModels (Sample.settings_with [Sample.ollama; Sample.groq])
             (mount (Sample.fresh Sample.offline)) in
  availableModels h = [] ∧ console h = [NetworkError]
  ∧ requests (network (runtime h)) = ["http://localhost:11434/api/tags"].
Proof. repeat split. Qed.

(** ** Order of the catalog *)

Lemma all_resolve_start_all (rt : Runtime) (cs : list Connection.t)
    (mss : list (list Model.t)) (rt' : Runtime) :
  all_resolve rt cs mss rt' → start_all cs rt = (Normal <$> mss, rt').
Proof.
  induction 1 as [rt|rt c ms rt1 cs mss rt2 Hc _ IH]; [done|].
  rewrite start_all_cons, Hc; simpl. by rewrite IH.
Qed.

(** When no resolution is rejected, all of them resolve in order. *)
Lemma all_resolve_complete (cs : list Connection.t) (rt : Runtime) :
  forallb is_normal (start_all cs rt).1 = true →
  ∃ mss, all_resolve rt cs mss (start_all cs rt).2.
Proof.
  revert rt; induction cs as [|c cs IH]; intros rt; [exists []; constructor|].
  rewrite start_all_cons; simpl.
  destruct (resolve c rt) as [[ms|e] rt1] eqn:Hc; simpl; [|discriminate].
  intros Hf. destruct (IH rt1 Hf) as [mss Hmss].
  exists (ms :: mss). by econstructor.
Qed.

Lemma promise_all_fulfilled {A} (vs : list A) : promise_all (Normal <$> vs) = Normal vs.
Proof. by apply promise_all_normal. Qed.

(** C8: when the resolutions of the connections of the list all succeed,
    one after the other, the pass stores the concatenation of their model
    lists, in the order of the connections, writes nothing on the console,
    and leaves the runtime in the state reached after the last of them. *)
Theorem catalog_is_concatenation (settings : option Settings.t) (h : Hook)
    (mss : list (list Model.t)) (rt' : Runtime) :
  all_resolve (runtime h) (connections_of settings) mss rt' →
  fetchAvailableModels settings h =
    {| runtime := rt'; console := console h; availableModels := concat mss |}.
Proof.
  intros Ha. unfold fetchAvailableModels.
  rewrite (all_resolve_start_all _ _ _ _ Ha).
  by rewrite promise_all_fulfilled.
Qed.

Lemma catalog_is_concatenation_witness :
  let h := mount (Sample.fresh (Sample.serving Sample.tags_ab)) in
  let settings := Sample.settings_with [Sample.ollama; Sample.unknown; Sample.groq] in
  ∃ mss rt',
    all_resolve (runtime h) (connections_of settings) mss rt'
    ∧ length mss = 3
    ∧ fetchAvailableModels settings h =
        {| runtime := rt'; console := console h; availableModels := concat mss |}.
Proof.
  intros h settings. eexists _, _.
  match goal with |- ?A ∧ _ => assert (Ha : A) end.
  { repeat (eapply all_resolve_cons; [reflexivity|]). apply all_resolve_nil. }
  split; [exact Ha|]. split; [reflexivity|].
  exact (catalog_is_concatenation settings h _ _ Ha).
Defined.

(** C9: when the settings, their [data], its [general] or the
    [connections] of that are missing, the pass stores the empty catalog,
    leaves the runtime untouched (no request, no memo entry) and writes
    nothing on the console. *)
Theorem no_connection_list (h : Hook) :
  let idle := {| runtime := runtime h; console := console h; availableModels := [] |} in
  fetchAvailableModels None h = idle
  ∧ fetchAvailableModels (Some (Settings.mk None)) h = idle
  ∧ fetchAvailableModels (Some (Settings.mk (Some (Settings.mk_data None)))) h = idle
  ∧ fetchAvailableModels
      (Some (Settings.mk (Some (Settings.mk_data (Some (Settings.mk_general None)))))) h
    = idle.
Proof. repeat split. Qed.

(** ** Determinism of the static branches *)

(** C10: for two connections of one type other than 'ollama' and one id,
    whatever their payloads and whatever the networks and (sound) memo
    tables, resolution is fulfilled in both runs with the same list of
    models up to the back-reference, which is the connection given; for
    one and the same connection the two results are identical.  Neither
    run issues a request. *)
Theorem static_resolution_deterministic (c1 c2 : Connection.t) (rt1 rt2 : Runtime) :
  cache_sound rt1 → cache_sound rt2 →
  Connection.type c1 ≠ "ollama" →
  Connection.type c2 = Connection.type c1 →
  Connection.id c2 = Connection.id c1 →
  ∃ ms,
    (fetchModelsByProvider c1 rt1).1 = Normal ms
    ∧ (fetchModelsByProvider c2 rt2).1 = Normal (rebind c2 <$> ms)
    ∧ (c2 = c1 → (fetchModelsByProvider c2 rt2).1 = (fetchModelsByProvider c1 rt1).1)
    ∧ requests (network (fetchModelsByProvider c1 rt1).2) = requests (network rt1)
    ∧ requests (network (fetchModelsByProvider c2 rt2).2) = requests (network rt2).
Proof.
  intros Hs1 Hs2 Hn Ht Hi.
  destruct (fetch_models_result c1 rt1 Hs1) as [nw1 [_ E1]].
  destruct (fetch_models_result c2 rt2 Hs2) as [nw2 [_ E2]].
  assert (Hq1 : requests (network (fetchModelsByProvider c1 rt1).2) = requests (network rt1)).
  { by destruct (fetch_models_requests c1 rt1) as [?|(_ & ? & _)]. }
  assert (Hq2 : requests (network (fetchModelsByProvider c2 rt2).2) = requests (network rt2)).
  { destruct (fetch_models_requests c2 rt2) as [?|(_ & ? & _)]; [done | congruence]. }
  rewrite E1, E2.
  destruct (type_cases c1) as [H|[H|[H|(H1 & H2 & H3)]]]; [| |done|].
  - rewrite (fn_openai c1), (fn_openai c2) by congruence.
    eexists; split; [reflexivity|]. split; [|split; [by intros ->|done]].
    simpl. unfold rebind, record_of; simpl. by rewrite Hi.
  - rewrite (fn_groq c1), (fn_groq c2) by congruence.
    eexists; split; [reflexivity|]. split; [|split; [by intros ->|done]].
    simpl. unfold rebind, record_of; simpl. by rewrite Hi.
  - rewrite (fn_default c1), (fn_default c2) by congruence.
    eexists; split; [reflexivity|]. split; [done|]. split; [by intros ->|done].
Qed.

Lemma static_resolution_deterministic_witness :
  let rt1 := Sample.fresh Sample.offline in
  let rt2 := Sample.fresh (Sample.serving Sample.tags_ab) in
  ∃ ms,
    (fetchModelsByProvider Sample.openai rt1).1 = Normal ms
    ∧ (fetchModelsByProvider Sample.openai' rt2).1 = Normal (rebind Sample.openai' <$> ms)
    ∧ (Sample.openai' = Sample.openai →
       (fetchModelsByProvider Sample.openai' rt2).1 = (fetchModelsByProvider Sample.openai rt1).1)
    ∧ requests (network (fetchModelsByProvider Sample.openai rt1).2) = requests (network rt1)
    ∧ requests (network (fetchModelsByProvider Sample.openai' rt2).2) = requests (network rt2).
Proof.
  apply (static_resolution_deterministic Sample.openai Sample.openai'
           (Sample.fresh Sample.offline) (Sample.fresh (Sample.serving Sample.tags_ab))).
  - intros c r H; discriminate H.
  - intros c r H; discriminate H.
  - discriminate.
  - reflexivity.
  - reflexivity.
Defined.

(** Two connection objects of type 'openai' with the id "c2" and different
    payloads: on one and the same runtime their model lists differ, since
    every model carries the connection it was resolved for, payload
    included. *)
Lemma static_lists_differ_by_payload :
  Connection.type Sample.openai' = Connection.type Sample.openai
  ∧ Connection.id Sample.openai' = Connection.id Sample.openai
  ∧ (fetchModelsByProvider Sample.openai' (Sample.fresh Sample.offline)).1
    ≠ (fetchModelsByProvider Sample.openai (Sample.fresh Sample.offline)).1.
Proof.
  split; [reflexivity|]. split; [reflexivity|].
  vm_compute. discriminate.
Qed.

(** ** More on the ollama branch *)

Lemma get_throw (v : jsval) (k : string) (e : js_error) :
  get v k = Throw e → e = TypeError.
Proof. destruct v; simpl; congruence. Qed.

(** Induction on a value, with the hypothesis for every item of an array. *)
Lemma jsval_items_ind (P : jsval → Prop) :
  P JUndefined → P JNull → (∀ b, P (JBool b)) → (∀ repr, P (JNumber repr)) →
  (∀ s, P (JString s)) →
  (∀ items, Forall P items → P (JArray items)) →
  (∀ props, P (JObject props)) →
  ∀ v, P v.
Proof.
  intros HU HN HB HR HS HA HO.
  refine (fix go (v : jsval) : P v :=
            match v with
            | JUndefined => HU
            | JNull => HN
            | JBool b => HB b
            | JNumber repr => HR repr
            | JString s => HS s
            | JArray items =>
                HA items ((fix all (l : list jsval) : Forall P l :=
                             match l with
                             | [] => List.Forall_nil P
                             | x :: rest => @List.Forall_cons _ P x rest (go x) (all rest)
                             end) items)
            | JObject props => HO props
            end).
Qed.

(** A conversion to a string fails with a TypeError only. *)
Lemma to_string_throw (v : jsval) (e : js_error) :
  to_string v = Throw e → e = TypeError.
Proof.
  revert e. induction v as [| |b|repr|s|items IH|props] using jsval_items_ind;
    intros e; simpl; try discriminate.
  - destruct b; discriminate.
  - induction IH as [|x items Hx _ IHitems]; [discriminate|].
    destruct (match x with
              | JUndefined | JNull => Normal ""
              | _ => to_string x
              end) as [s|e'] eqn:Hm; simpl.
    + destruct items as [|y items]; [discriminate|].
      match goal with
      | |- bind ?j _ = _ → _ => destruct j as [r|e''] eqn:Hj; simpl; [discriminate|]
      end.
      intros [= <-]. by apply IHitems.
    + intros [= <-]. destruct x; try discriminate; by apply Hx.
  - destruct (own_property "toString" props); congruence.
Qed.

(** The callback of [records.map] in the ollama branch. *)
Lemma record_callback_throw (c : Connection.t) (x : jsval) (e : js_error) :
  bind (get x "name") (fun name =>
  bind (to_string name) (fun name =>
  Normal (record_of ((Connection.id c +:+ "/") +:+ name) c))) = Throw e →
  e = TypeError.
Proof.
  destruct (get x "name") as [name|e1] eqn:Hg; simpl.
  - destruct (to_string name) as [s|e2] eqn:Hs; simpl; [discriminate|].
    intros [= <-]. by eapply to_string_throw.
  - intros [= <-]. by eapply get_throw.
Qed.


Lemma map_items_throw {A} (f : jsval → completion A) (items : list jsval) (x : jsval)
    (e : js_error) :
  (∀ y e', f y = Throw e' → e' = e) →
  x ∈ items → f x = Throw e → map_items f items = Throw e.
Proof.
  intros Hf Hin Hx. induction items as [|y items IH]; [by apply elem_of_nil in Hin|].
  simpl. apply elem_of_cons in Hin as [<-|Hin]; [by rewrite Hx|].
  destruct (f y) as [v|e'] eqn:Hy; simpl; [by rewrite (IH Hin)|].
  by rewrite (Hf _ _ Hy).
Qed.

(** The ollama branch on a reply whose 'models' is an array. *)
Lemma fn_ollama_records (c : Connection.t) (nw : Network) (url : string)
    (body : jsval) (records : list jsval) :
  Connection.type c = "ollama" →
  bind (get (Connection.data c) "url") to_string = Normal url →
  respond nw (length (requests nw)) (url +:+ "/api/tags") = Response (Some body) →
  get body "models" = Normal (JArray records) →
  (fetchModelsByProvider_fn c nw).1 =
    map_items (fun model =>
      bind (get model "name") (fun name =>
      bind (to_string name) (fun name =>
      Normal (record_of ((Connection.id c +:+ "/") +:+ name) c)))) records.
Proof.
  intros Ht Hu Hr Hm. rewrite (fn_ollama _ _ _ Ht Hu); simpl.
  by rewrite Hr; simpl; rewrite Hm.
Qed.



(** X2: One [null] among the entries of 'models' rejects the resolution of the
    whole connection with a TypeError, whatever the other entries are. *)
Theorem ollama_null_entry_rejects (c : Connection.t) (rt : Runtime) (url : string)
    (body : jsval) (records : list jsval) :
  cache_sound rt →
  Connection.type c = "ollama" →
  bind (get (Connection.data c) "url") to_string = Normal url →
  (∀ n, respond (network rt) n (url +:+ "/api/tags") = Response (Some body)) →
  get body "models" = Normal (JArray records) →
  JNull ∈ records →
  (fetchModelsByProvider c rt).1 = Throw TypeError.
Proof.
  intros Hs Ht Hu Hr Hm Hn.
  destruct (fetch_models_result c rt Hs) as [nw [Hnw ->]].
  rewrite (fn_ollama_records c nw url body records Ht Hu); [|by rewrite Hnw|done].
  eapply map_items_throw; [|exact Hn|done].
  intros y e'. apply record_callback_throw.
Qed.

Lemma ollama_null_entry_rejects_witness :
  (fetchModelsByProvider Sample.ollama
     (Sample.fresh (Sample.serving
        (JObject [("models", JArray [JObject [("name", JString "a")]; JNull])])))).1 =
    Throw TypeError.
Proof.
  apply (ollama_null_entry_rejects Sample.ollama _ "http://localhost:11434"
           (JObject [("models", JArray [JObject [("name", JString "a")]; JNull])])
           [JObject [("name", JString "a")]; JNull]).
  - intros c r H; discriminate H.
  - reflexivity.
  - reflexivity.
  - intros n; reflexivity.
  - reflexivity.
  - apply list_elem_of_In. simpl. tauto.
Defined.

(** X3: An ollama connection without a payload is rejected before any request
    is made: reading [url] of [undefined] or [null] throws. *)
Theorem ollama_without_payload_rejects (c : Connection.t) (rt : Runtime) :
  cache_sound rt →
  Connection.type c = "ollama" →
  Connection.data c = JUndefined ∨ Connection.data c = JNull →
  (fetchModelsByProvider c rt).1 = Throw TypeError
  ∧ requests (network (fetchModelsByProvider c rt).2) = requests (network rt).
Proof.
  intros Hs Ht Hd.
  assert (Hu : bind (get (Connection.data c) "url") to_string = Throw TypeError).
  { by destruct Hd as [-> | ->]. }
  split.
  - destruct (fetch_models_result c rt Hs) as [nw [_ ->]].
    by rewrite (fn_ollama_no_url _ _ _ Ht Hu).
  - unfold fetchModelsByProvider, network.
    destruct (cached c rt.1) as [v|] eqn:Hc.
    + by rewrite (cache_hit _ _ _ _ Hc).
    + rewrite (cache_miss _ _ _ Hc); simpl.
      by rewrite (fn_ollama_no_url _ _ _ Ht Hu).
Qed.

Lemma ollama_without_payload_rejects_witness :
  let c := Connection.mk 8 "c8" "ollama" JNull in
  (fetchModelsByProvider c (Sample.fresh (Sample.serving Sample.tags_ab))).1 = Throw TypeError
  ∧ requests (network (fetchModelsByProvider c (Sample.fresh (Sample.serving Sample.tags_ab))).2)
    = [].
Proof.
  apply (ollama_without_payload_rejects (Connection.mk 8 "c8" "ollama" JNull)
           (Sample.fresh (Sample.serving Sample.tags_ab))).
  - intros c r H; discriminate H.
  - reflexivity.
  - right; reflexivity.
Defined.

(** X4: An ollama connection whose payload has no [url] is not rejected for
    that: its first resolution requests the relative URL
    "undefined/api/tags". *)
Theorem ollama_without_url_requests_undefined (c : Connection.t) (rt : Runtime) :
  Connection.type c = "ollama" →
  get (Connection.data c) "url" = Normal JUndefined →
  cached c (memo rt) = None →
  requests (network (fetchModelsByProvider c rt).2) =
    requests (network rt) ++ ["undefined/api/tags"].
Proof.
  intros Ht Hu Hc. unfold fetchModelsByProvider, network.
  rewrite (cache_miss _ _ _ Hc); simpl.
  rewrite (fn_ollama c rt.2 "undefined" Ht); [done|]. by rewrite Hu.
Qed.

Lemma ollama_without_url_requests_undefined_witness :
  let c := Connection.mk 9 "c9" "ollama" (JObject [("host", JString "localhost")]) in
  requests (network (fetchModelsByProvider c (Sample.fresh Sample.offline)).2) =
    ["undefined/api/tags"].
Proof.
  apply (ollama_without_url_requests_undefined
           (Connection.mk 9 "c9" "ollama" (JObject [("host", JString "localhost")]))
           (Sample.fresh Sample.offline)); reflexivity.
Defined.

(** ** The requests of a pass *)

Lemma fn_requests_tags (c : Connection.t) (nw : Network) :
  requests (fetchModelsByProvider_fn c nw).2 = requests nw ∨
  (Connection.type c = "ollama" ∧
   ∃ base, bind (get (Connection.data c) "url") to_string = Normal base ∧
           requests (fetchModelsByProvider_fn c nw).2 = requests nw ++ [base +:+ "/api/tags"]).
Proof.
  destruct (decide (Connection.type c = "ollama")) as [Ht|Ht].
  - destruct (bind (get (Connection.data c) "url") to_string) as [url|e] eqn:Hu.
    + right. split; [done|]. exists url. split; [done|].
      by rewrite (fn_ollama _ _ _ Ht Hu).
    + left. by rewrite (fn_ollama_no_url _ _ _ Ht Hu).
  - left. by rewrite fn_static_network.
Qed.

Lemma fetch_models_requests_tags (c : Connection.t) (rt : Runtime) :
  requests (network (fetchModelsByProvider c rt).2) = requests (network rt) ∨
  (Connection.type c = "ollama" ∧
   ∃ base, bind (get (Connection.data c) "url") to_string = Normal base ∧
           requests (network (fetchModelsByProvider c rt).2) =
             requests (network rt) ++ [base +:+ "/api/tags"]).
Proof.
  unfold fetchModelsByProvider, network.
  destruct (cached c rt.1) as [v|] eqn:Hc.
  - left. by rewrite (cache_hit _ _ _ _ Hc).
  - rewrite (cache_miss _ _ _ Hc); simpl. apply fn_requests_tags.
Qed.

Lemma start_all_requests (cs : list Connection.t) (rt : Runtime) :
  ∃ extra,
    requests (network (start_all cs rt).2) = requests (network rt) ++ extra
    ∧ Forall (fun u => ∃ c base,
                c ∈ cs ∧ Connection.type c = "ollama" ∧
                bind (get (Connection.data c) "url") to_string = Normal base ∧
                u = base +:+ "/api/tags") extra
    ∧ length extra ≤ length (filter (fun c => Connection.type c = "ollama") cs).
Proof.
  revert rt; induction cs as [|c cs IH]; intros rt.
  - exists []. by rewrite app_nil_r.
  - rewrite start_all_cons; simpl.
    destruct (IH (resolve c rt).2) as (extra & Hreq & Hall & Hlen).
    rewrite Hreq, resolve_snd. rewrite filter_cons.
    assert (Hall' : Forall (fun u => ∃ c0 base,
                c0 ∈ c :: cs ∧ Connection.type c0 = "ollama" ∧
                bind (get (Connection.data c0) "url") to_string = Normal base ∧
                u = base +:+ "/api/tags") extra).
    { eapply Forall_impl; [exact Hall|].
      intros u (c0 & base & Hin & H); exists c0, base.
      split; [by apply elem_of_cons; right | exact H]. }
    destruct (fetch_models_requests_tags c rt) as [->|(Ht & base & Hu & ->)].
    + exists extra. split; [done|]. split; [done|].
      destruct (decide (Connection.type c = "ollama")); simpl; lia.
    + exists ((base +:+ "/api/tags") :: extra). split; [by rewrite <- app_assoc|].
      split.
      * constructor; [|done]. exists c, base.
        split; [by apply elem_of_cons; left | done].
      * rewrite decide_True by done. simpl. lia.
Qed.

(** X5: A pass only adds to the list of requests, at most one request per
    ollama connection of the list, and every added request goes to the
    [url ++ "/api/tags"] of such a connection. *)
Theorem pass_requests_only_tags (settings : option Settings.t) (h : Hook) :
  ∃ extra,
    requests (network (runtime (fetchAvailableModels settings h))) =
      requests (network (runtime h)) ++ extra
    ∧ Forall (fun u => ∃ c base,
                c ∈ connections_of settings ∧ Connection.type c = "ollama" ∧
                bind (get (Connection.data c) "url") to_string = Normal base ∧
                u = base +:+ "/api/tags") extra
    ∧ length extra ≤
        length (filter (fun c => Connection.type c = "ollama") (connections_of settings)).
Proof. rewrite pass_runtime. apply start_all_requests. Qed.

(** ** Lists without ollama connections *)

Lemma static_result (c : Connection.t) (rt : Runtime) :
  cache_sound rt →
  Connection.type c ≠ "ollama" →
  ∃ ms, (fetchModelsByProvider c rt).1 = Normal ms
        ∧ length ms = (if decide (Connection.type c = "openai" ∨ Connection.type c = "groq")
                       then 4 else 0)
        ∧ requests (network (fetchModelsByProvider c rt).2) = requests (network rt).
Proof.
  intros Hs Hn.
  assert (Hq : requests (network (fetchModelsByProvider c rt).2) = requests (network rt)).
  { by destruct (fetch_models_requests c rt) as [?|(_ & ? & _)]. }
  destruct (fetch_models_result c rt Hs) as [nw [_ ->]].
  destruct (type_cases c) as [H|[H|[H|(H1 & H2 & H3)]]]; [| |done|].
  - rewrite fn_openai by done. eexists; split; [done|].
    rewrite decide_True by auto. done.
  - rewrite fn_groq by done. eexists; split; [done|].
    rewrite decide_True by auto. done.
  - rewrite fn_default by done. eexists; split; [done|].
    rewrite decide_False by tauto. done.
Qed.

Lemma start_all_static (cs : list Connection.t) (rt : Runtime) :
  cache_sound rt →
  Forall (fun c => Connection.type c ≠ "ollama") cs →
  ∃ mss, (start_all cs rt).1 = Normal <$> mss
         ∧ length (concat mss) =
             4 * length (filter (fun c => Connection.type c = "openai" ∨
                                          Connection.type c = "groq") cs)
         ∧ requests (network (start_all cs rt).2) = requests (network rt).
Proof.
  intros Hs Hall. revert rt Hs.
  induction Hall as [|c cs Hc _ IH]; intros rt Hs; [by exists []|].
  rewrite start_all_cons; simpl.
  destruct (static_result c rt Hs Hc) as (ms & Hms & Hlen & Hreq).
  destruct (IH (resolve c rt).2) as (mss & Hmss & Hlens & Hreqs).
  { rewrite resolve_snd. by apply fetch_models_sound. }
  exists ((with_name <$> ms) :: mss).
  split; [by rewrite resolve_fst, Hms, Hmss|].
  split.
  - simpl. rewrite length_app, length_fmap, Hlen, Hlens, filter_cons.
    destruct (decide (Connection.type c = "openai" ∨ Connection.type c = "groq"));
      simpl; lia.
  - by rewrite Hreqs, resolve_snd.
Qed.

(** X6: A pass over a list without ollama connections cannot fail: it writes
    nothing on the console, makes no request, and stores four models for
    each connection of type 'openai' or 'groq' and none for the others. *)
Theorem static_pass_never_fails (settings : option Settings.t) (h : Hook) :
  cache_sound (runtime h) →
  Forall (fun c => Connection.type c ≠ "ollama") (connections_of settings) →
  console (fetchAvailableModels settings h) = console h
  ∧ requests (network (runtime (fetchAvailableModels settings h))) =
      requests (network (runtime h))
  ∧ length (availableModels (fetchAvailableModels settings h)) =
      4 * length (filter (fun c => Connection.type c = "openai" ∨
                                   Connection.type c = "groq") (connections_of settings)).
Proof.
  intros Hs Hall.
  destruct (start_all_static _ _ Hs Hall) as (mss & Hmss & Hlen & Hreq).
  rewrite pass_console, pass_runtime, pass_catalog, Hmss, promise_all_fulfilled.
  done.
Qed.

Lemma static_pass_never_fails_witness :
  let settings := Sample.settings_with [Sample.openai; Sample.unknown; Sample.groq] in
  let h := mount (Sample.fresh Sample.offline) in
  console (fetchAvailableModels settings h) = console h
  ∧ requests (network (runtime (fetchAvailableModels settings h))) =
      requests (network (runtime h))
  ∧ length (availableModels (fetchAvailableModels settings h)) =
      4 * length (filter (fun c => Connection.type c = "openai" ∨
                                   Connection.type c = "groq") (connections_of settings)).
Proof.
  apply (static_pass_never_fails
           (Sample.settings_with [Sample.openai; Sample.unknown; Sample.groq])
           (mount (Sample.fresh Sample.offline))).
  - intros c r H; discriminate H.
  - repeat constructor; discriminate.
Defined.

(** ** What every model of the catalog has *)

Lemma split_all_pieces (sep : ascii) (s : string) :
  Forall (fun piece => occurs sep piece = false) (split_all sep s).
Proof.
  induction s as [|c s IH]; simpl; [by repeat constructor|].
  destruct (Ascii.eqb c sep) eqn:Hc; [by constructor|].
  destruct (split_all sep s) as [|piece pieces]; [by repeat constructor; simpl; rewrite Hc|].
  apply Forall_cons in IH as [Hp Hps]. constructor; [|done].
  simpl. by rewrite Hc, Hp.
Qed.

Lemma split_all_two (sep : ascii) (s : string) :
  occurs sep s = true → ∃ p1 p2 rest, split_all sep s = p1 :: p2 :: rest.
Proof.
  induction s as [|c s IH]; simpl; [discriminate|].
  destruct (Ascii.eqb c sep); simpl.
  - intros _. destruct (split_all_cons sep s) as (p & ps & ->). eauto.
  - intros Ho. destruct (IH Ho) as (p1 & p2 & rest & ->). eauto.
Qed.

Lemma occurs_append (sep : ascii) (a b : string) :
  occurs sep (a +:+ String sep b) = true.
Proof.
  induction a as [|c a IH].
  - simpl. by rewrite Ascii.eqb_refl.
  - change (Ascii.eqb c sep || occurs sep (a +:+ String sep b) = true).
    rewrite IH. by destruct (Ascii.eqb c sep).
Qed.

Lemma with_name_present (c : Connection.t) (r : Model.t) :
  owned_by c r →
  ∃ piece, Model.name (with_name r) = Some piece ∧ occurs "/" piece = false.
Proof.
  intros [_ [n Hn]]. unfold with_name, split; simpl. rewrite Hn.
  destruct (split_all_two "/" (Connection.id c +:+ "/" +:+ n)) as (p1 & p2 & rest & Hs).
  { apply occurs_append. }
  pose proof (split_all_pieces "/" (Connection.id c +:+ "/" +:+ n)) as Hp.
  rewrite Hs in *. exists p2. split; [done|].
  by apply Forall_cons in Hp as [_ [? _]%Forall_cons].
Qed.

(** Every model of a fulfilled callback is a record of the connection
    with its display name added. *)
Lemma resolve_images (c : Connection.t) (rt : Runtime) (ms : list Model.t) :
  cache_sound rt →
  (resolve c rt).1 = Normal ms →
  Forall (fun m => ∃ r, owned_by c r ∧ m = with_name r) ms.
Proof.
  intros Hs. rewrite resolve_fst.
  destruct (fetchModelsByProvider c rt).1 as [records|e] eqn:Hr; simpl; [|discriminate].
  intros [= <-]. apply Forall_fmap.
  eapply Forall_impl; [by eapply fetch_models_owned|].
  intros r Hr'; simpl. by exists r.
Qed.

Lemma start_all_images (cs : list Connection.t) (rt : Runtime) :
  cache_sound rt →
  Forall (fun p => ∀ ms, p = Normal ms →
            Forall (fun m => ∃ c r, c ∈ cs ∧ owned_by c r ∧ m = with_name r) ms)
         (start_all cs rt).1.
Proof.
  revert rt; induction cs as [|c cs IH]; intros rt Hs; [constructor|].
  rewrite start_all_cons; simpl. constructor.
  - intros ms Hms. eapply Forall_impl; [by eapply resolve_images|].
    intros m (r & Hr & ->); simpl. exists c, r. split; [by apply elem_of_cons; left|done].
  - eapply Forall_impl; [apply IH; rewrite resolve_snd; by apply fetch_models_sound|].
    intros p Hp ms Hms; simpl in *. eapply Forall_impl; [by apply Hp|].
    intros m (c' & r & Hin & H); simpl. exists c', r.
    split; [by apply elem_of_cons; right|done].
Qed.

Lemma pass_images (settings : option Settings.t) (h : Hook) :
  cache_sound (runtime h) →
  Forall (fun m => ∃ c r, c ∈ connections_of settings ∧ owned_by c r ∧ m = with_name r)
         (availableModels (fetchAvailableModels settings h)).
Proof.
  intros Hs. rewrite pass_catalog.
  destruct (promise_all _) as [models|e] eqn:Hp; [|constructor].
  apply promise_all_normal in Hp. apply Forall_concat.
  pose proof (start_all_images (connections_of settings) (runtime h) Hs) as Ho.
  rewrite Hp in Ho. apply Forall_fmap in Ho.
  eapply Forall_impl; [exact Ho|]. intros ms Hms; by apply Hms.
Qed.

(** X8: Every model of the catalog has a display name (it is never left
    undefined), and the display name contains no '/'. *)
Theorem catalog_names_present (settings : option Settings.t) (h : Hook) :
  cache_sound (runtime h) →
  Forall (fun m => ∃ piece, Model.name m = Some piece ∧ occurs "/" piece = false)
         (availableModels (fetchAvailableModels settings h)).
Proof.
  intros Hs. eapply Forall_impl; [by apply pass_images|].
  intros m (c & r & _ & Hr & ->); simpl. by eapply with_name_present.
Qed.

Lemma catalog_names_present_witness :
  Forall (fun m => ∃ piece, Model.name m = Some piece ∧ occurs "/" piece = false)
         (availableModels
            (fetchAvailableModels (Sample.settings_with [Sample.outer; Sample.inner])
               (mount (Sample.fresh (Sample.serving Sample.tags_clash))))).
Proof.
  apply (catalog_names_present (Sample.settings_with [Sample.outer; Sample.inner])
           (mount (Sample.fresh (Sample.serving Sample.tags_clash)))).
  intros c r H; discriminate H.
Defined.

(** X9: Every model of the catalog points back to a connection of the list
    the pass was run with. *)
Theorem catalog_connections_listed (settings : option Settings.t) (h : Hook) :
  cache_sound (runtime h) →
  Forall (fun m => Model.connection m ∈ connections_of settings)
         (availableModels (fetchAvailableModels settings h)).
Proof.
  intros Hs. eapply Forall_impl; [by apply pass_images|].
  intros m (c & r & Hin & [Hc _] & ->); simpl. by rewrite Hc.
Qed.

Lemma catalog_connections_listed_witness :
  Forall (fun m => Model.connection m ∈
                     connections_of (Sample.settings_with [Sample.ollama; Sample.groq]))
         (availableModels
            (fetchAvailableModels (Sample.settings_with [Sample.ollama; Sample.groq])
               (mount (Sample.fresh (Sample.serving Sample.tags_ab))))).
Proof.
  apply (catalog_connections_listed (Sample.settings_with [Sample.ollama; Sample.groq])
           (mount (Sample.fresh (Sample.serving Sample.tags_ab)))).
  intros c r H; discriminate H.
Defined.

Lemma display_name_plain_witness :
  Model.name (with_name (record_of ("c1" +:+ "/" +:+ "llama3:latest") Sample.ollama))
  = Some "llama3:latest".
Proof.
  apply (display_name_plain Sample.ollama "llama3:latest"); reflexivity.
Defined.

Lemma unusable_endpoint_empties_catalog_witness :
  availableModels
    (fetchAvailableModels (Sample.settings_with [Sample.groq; Sample.ollama])
       (mount (Sample.fresh (Sample.serving Sample.tags_missing)))) = [].
Proof.
  apply (unusable_endpoint_empties_catalog
           (Sample.settings_with [Sample.groq; Sample.ollama])
           (mount (Sample.fresh (Sample.serving Sample.tags_missing)))
           Sample.ollama "http://localhost:11434").
  - apply list_elem_of_In. simpl. tauto.
  - reflexivity.
  - reflexivity.
  - intros n; reflexivity.
  - reflexivity.
Defined.

(** ** The conversation *)

Section Grid.
Import Conversation.
Context {Src : Type}.
Variables (len : nat) (isLoading isSearchLoading : bool) (sources : list Src).

Lemma run_effects_done (queries : list string) (refs : Refs) :
  effectRanOnce refs = true → run_effects queries refs = refs.
Proof.
  revert refs; induction queries as [|q queries IH]; intros refs Hr; [done|].
  change (run_effects queries (append_once q refs) = refs).
  unfold append_once. rewrite Hr; simpl. by apply IH.
Qed.

(** The grid of a prefix of the messages, with the total length fixed. *)
Lemma grid_snoc (l : list Message) (m : Message) :
  concat (imap (fragment len isLoading isSearchLoading sources) (l ++ [m])) =
  concat (imap (fragment len isLoading isSearchLoading sources) l)
  ++ fragment len isLoading isSearchLoading sources (length l) m.
Proof.
  rewrite imap_app, concat_app; simpl.
  by rewrite app_nil_r, Nat.add_0_r.
Qed.

Lemma parity_cases (k : nat) :
  (k mod 2 = 0 ∧ S k / 2 = k / 2) ∨ (k mod 2 = 1 ∧ S k / 2 = S (k / 2)).
Proof.
  pose proof (Nat.div_mod_eq k 2) as Hk.
  pose proof (Nat.div_mod_eq (S k) 2) as HS.
  pose proof (Nat.mod_upper_bound k 2) as Hb.
  pose proof (Nat.mod_upper_bound (S k) 2) as HbS.
  lia.
Qed.

Lemma grid_separators (l : list Message) :
  length (List.filter is_separator
            (concat (imap (fragment len isLoading isSearchLoading sources) l)))
  = length l / 2.
Proof.
  induction l as [|m l IH] using rev_ind; [done|].
  rewrite grid_snoc, List.filter_app, !length_app, IH.
  change (length [m]) with 1. rewrite Nat.add_1_r. unfold fragment.
  destruct (parity_cases (length l)) as [[-> Hd]|[-> Hd]]; rewrite Hd;
    generalize (length l / 2); intros d; simpl; lia.
Qed.

Lemma grid_zeros (l : list Message) :
  length (List.filter shows_zero
            (concat (imap (fragment len isLoading isSearchLoading sources) l)))
  = if negb isSearchLoading && Nat.eqb (length sources) 0 then length l / 2 else 0.
Proof.
  induction l as [|m l IH] using rev_ind; [by destruct (_ && _)|].
  rewrite grid_snoc, List.filter_app, !length_app, IH.
  change (length [m]) with 1. rewrite Nat.add_1_r. unfold fragment, sources_child.
  destruct (parity_cases (length l)) as [[-> Hd]|[-> Hd]]; rewrite Hd;
    generalize (length l / 2); intros d;
    destruct isSearchLoading; simpl; try lia;
    destruct sources; simpl; lia.
Qed.

Lemma grid_no_ref (l : list Message) :
  length l < len →
  List.filter has_ref
    (concat (imap (fragment len isLoading isSearchLoading sources) l)) = [].
Proof.
  induction l as [|m l IH] using rev_ind; [done|].
  rewrite length_app; simpl. intros Hl.
  rewrite grid_snoc, List.filter_app, IH by lia; simpl.
  unfold fragment.
  destruct (parity_cases (length l)) as [[-> _]|[-> _]]; simpl; [done|].
  by rewrite (proj2 (Nat.eqb_neq _ _)) by lia.
Qed.
End Grid.

(** X13: However often the first effect runs and whatever [searchQuery] is at
    each run, [append] is called exactly once, with the query of the first
    run as a user message; later queries are never sent. *)
Theorem append_called_once (searchQuery : string) (later : list string) :
  Conversation.run_effects (searchQuery :: later) Conversation.initial =
    {| Conversation.effectRanOnce := true;
       Conversation.appended := [Conversation.mk_message "user" searchQuery] |}.
Proof. simpl. by apply run_effects_done. Qed.

(** X14: The grid has one separator after every second message, so half as
    many separators as messages (rounded down); the scroll anchor
    [setSeparatorRef] is given to a separator only when the number of
    messages is even and not zero, and then to the last node of the grid
    and to no other. *)
Theorem separators_and_anchor {Src : Type} (messages : list Conversation.Message)
    (isLoading isSearchLoading : bool) (sources : list Src) :
  let grid := Conversation.message_grid messages isLoading isSearchLoading sources in
  length (List.filter Conversation.is_separator grid) = length messages / 2
  ∧ List.filter Conversation.has_ref grid =
      (if Nat.even (length messages) && negb (Nat.eqb (length messages) 0)
       then [Conversation.Separator true] else [])
  ∧ (Nat.even (length messages) && negb (Nat.eqb (length messages) 0) = true →
     last grid = Some (Conversation.Separator true)).
Proof.
  intros grid. subst grid. unfold Conversation.message_grid.
  split; [apply grid_separators|].
  destruct messages as [|m l _] using rev_ind; [done|].
  rewrite grid_snoc, List.filter_app, grid_no_ref by (rewrite length_app; simpl; lia).
  rewrite length_app; simpl.
  replace (length l + 1) with (S (length l)) by lia.
  rewrite Nat.even_succ, <- Nat.negb_even. unfold Conversation.fragment.
  replace (S (length l) - 1) with (length l) by lia.
  rewrite Nat.eqb_refl.
  destruct (parity_cases (length l)) as [[Hm _]|[Hm _]]; rewrite Hm; simpl.
  - assert (He : Nat.even (length l) = true).
    { apply Nat.even_spec. exists (length l / 2).
      pose proof (Nat.div_mod_eq (length l) 2). lia. }
    rewrite He; simpl. split; [done | discriminate].
  - assert (He : Nat.even (length l) = false).
    { destruct (Nat.even (length l)) eqn:He; [|done].
      apply Nat.even_spec in He as [k Hk].
      pose proof (Nat.div_mod_eq (length l) 2).
      pose proof (Nat.mod_upper_bound (length l) 2). lia. }
    rewrite He; simpl. split; [done|]. intros _.
    by rewrite last_app.
Qed.

(** X15: While the search is not loading and there are no sources, every
    answer cell of the grid gets the number 0 as a child, which React
    shows as the text "0"; in every other case no cell does. *)
Theorem sources_zero_shown {Src : Type} (messages : list Conversation.Message)
    (isLoading isSearchLoading : bool) (sources : list Src) :
  length (List.filter Conversation.shows_zero
            (Conversation.message_grid messages isLoading isSearchLoading sources))
  = if negb isSearchLoading && Nat.eqb (length sources) 0
    then length messages / 2 else 0.
Proof. apply grid_zeros. Qed.

(** ** The headers of a response *)

Lemma occurs_app (sep : ascii) (a b : string) :
  occurs sep (a +:+ b) = occurs sep a || occurs sep b.
Proof.
  induction a as [|c a IH]; [done|].
  change (Ascii.eqb c sep || occurs sep (a +:+ b)
          = Ascii.eqb c sep || occurs sep a || occurs sep b).
  rewrite IH. by destruct (Ascii.eqb c sep).
Qed.

Lemma append_char (c : ascii) (r : string) : String c "" +:+ r = String c r.
Proof. reflexivity. Qed.

(** Splitting at the separator undoes joining with it, for a list that is
    not empty and whose items do not contain the separator. *)
Lemma split_all_join (sep : ascii) (items : list string) :
  items ≠ [] →
  Forall (fun item => occurs sep item = false) items →
  split_all sep (ApiResponseViewer.join (String sep "") items) = items.
Proof.
  intros Hne Hall. induction Hall as [|x items Hx Hall IH]; [done|].
  destruct items as [|y items]; simpl.
  - by apply split_all_no_sep.
  - change (String sep "" +:+ ?r) with (String sep r).
    rewrite (split_all_append _ _ _ Hx). f_equal. by apply IH.
Qed.

(** X16: With at least one header and no line feed in the names and values,
    the text copied on the 'headers' tab has exactly one line per header,
    ["name: value"], in the order of the entries. *)
Theorem headers_content_lines (entries : list (string * string)) :
  entries ≠ [] →
  Forall (fun '(key, value) =>
            occurs ApiResponseViewer.LF key = false ∧
            occurs ApiResponseViewer.LF value = false) entries →
  split_all ApiResponseViewer.LF (ApiResponseViewer.headers_content entries) =
    (fun '(key, value) => key +:+ ": " +:+ value) <$> entries.
Proof.
  intros Hne Hall. unfold ApiResponseViewer.headers_content.
  apply split_all_join; [by destruct entries|].
  apply Forall_fmap. eapply Forall_impl; [exact Hall|].
  intros [key value] [Hk Hv]; simpl. by rewrite !occurs_app, Hk, Hv.
Qed.

Lemma headers_content_lines_witness :
  split_all ApiResponseViewer.LF
    (ApiResponseViewer.headers_content
       [("Content-Type", "application/json"); ("X-Powered-By", "Example")]) =
    ["Content-Type: application/json"; "X-Powered-By: Example"].
Proof.
  apply (headers_content_lines
           [("Content-Type", "application/json"); ("X-Powered-By", "Example")]).
  - discriminate.
  - repeat constructor.
Defined.

(** X17: With at least one header and no line feed in the names and values,
    the markdown table of the 'headers' tab is the two heading lines
    followed by one row per header, ["| name | value |"], in the order of
    the entries. *)
Theorem markdownTable_rows (entries : list (string * string)) :
  entries ≠ [] →
  Forall (fun '(key, value) =>
            occurs ApiResponseViewer.LF key = false ∧
            occurs ApiResponseViewer.LF value = false) entries →
  split_all ApiResponseViewer.LF (ApiResponseViewer.markdownTable entries) =
    "| Header | Value |" :: "|-|-|" ::
    ((fun '(key, value) => "| " +:+ key +:+ " | " +:+ value +:+ " |") <$> entries).
Proof.
  intros Hne Hall. unfold ApiResponseViewer.markdownTable.
  rewrite !append_char.
  rewrite split_all_append by done. f_equal.
  rewrite split_all_append by done. f_equal.
  apply split_all_join; [by destruct entries|].
  apply Forall_fmap. eapply Forall_impl; [exact Hall|].
  intros [key value] [Hk Hv]; simpl. by rewrite !occurs_app, Hk, Hv.
Qed.

Lemma markdownTable_rows_witness :
  split_all ApiResponseViewer.LF
    (ApiResponseViewer.markdownTable
       [("Content-Type", "application/json"); ("X-Powered-By", "Example")]) =
    ["| Header | Value |"; "|-|-|";
     "| Content-Type | application/json |"; "| X-Powered-By | Example |"].
Proof.
  apply (markdownTable_rows
           [("Content-Type", "application/json"); ("X-Powered-By", "Example")]).
  - discriminate.
  - repeat constructor.
Defined.

(** ** Ids of a catalog whose connection ids are plain *)

(** X12: When no connection id of the list contains '/', two models of the
    catalog whose connections have different ids never share an id. *)
Theorem catalog_ids_distinct_plain (settings : option Settings.t) (h : Hook) :
  cache_sound (runtime h) →
  Forall (fun c => occurs "/" (Connection.id c) = false) (connections_of settings) →
  ids_distinct_across (availableModels (fetchAvailableModels settings h)).
Proof.
  intros Hs Hplain. apply plain_ids_distinct; [by apply pass_owned|].
  eapply Forall_impl; [by apply pass_images|].
  intros m (c & r & Hin & [Hc _] & ->); simpl. rewrite Hc.
  rewrite Forall_forall in Hplain. by apply Hplain.
Qed.

Lemma catalog_ids_distinct_plain_witness :
  ids_distinct_across
    (availableModels
       (fetchAvailableModels (Sample.settings_with [Sample.ollama; Sample.openai; Sample.groq])
          (mount (Sample.fresh (Sample.serving Sample.tags_nested))))).
Proof.
  apply (catalog_ids_distinct_plain
           (Sample.settings_with [Sample.ollama; Sample.openai; Sample.groq])
           (mount (Sample.fresh (Sample.serving Sample.tags_nested)))).
  - intros c r H; discriminate H.
  - repeat constructor.
Defined.
